(** * Release PipelineRun builder (tekton/pipeline_run.go)

    A shallow embedding of the fluent builder that assembles the Tekton
    PipelineRun of a release, and the properties of its mutators.

    Go strings are byte sequences; Rocq's [string] is a sequence of 8-bit
    [ascii] characters, so a Go string is modelled by the [string] holding the
    same bytes.  Go maps are finite maps ([gmap]); reading an absent key of a
    [map[string]string] yields the empty string.  The builder mutates one
    PipelineRun through a pointer and returns that pointer; here every mutator
    takes the current value and returns the next one. *)

From Stdlib Require Import ZArith Ascii String List Lia.
From stdpp Require Import base option list strings gmap fin_maps.

Local Open Scope string_scope.

(** ** Data model *)

(** tektonv1beta1.ParamType, with the two constants the builder uses. *)
Inductive ParamType : Type :=
  | ParamTypeString
  | ParamTypeArray.

(** tektonv1beta1.ArrayOrString (alias ParamValue).  A composite literal that
    leaves a field out gives it the zero value of its type. *)
Record ArrayOrString : Type := mkArrayOrString {
  aos_Type : ParamType;
  aos_StringVal : string;
  aos_ArrayVal : list string;
  aos_ObjectVal : gmap string string
}.

(** tektonv1beta1.Param *)
Record Param : Type := mkParam {
  param_Name : string;
  param_Value : ArrayOrString
}.

(** tektonv1beta1.ResolverRef *)
Record ResolverRef : Type := mkResolverRef {
  rr_Resolver : string;
  rr_Params : list Param
}.

(** tektonv1beta1.PipelineRef *)
Record PipelineRef : Type := mkPipelineRef {
  pref_Name : string;
  pref_APIVersion : string;
  pref_Bundle : string;
  pref_ResolverRef : ResolverRef
}.

(** corev1.PersistentVolumeClaimVolumeSource *)
Record PersistentVolumeClaimVolumeSource : Type := mkPVCSource {
  pvc_ClaimName : string;
  pvc_ReadOnly : bool
}.

(** tektonv1beta1.WorkspaceBinding, restricted to the fields the builder
    sets; the claim is a pointer, [None] being nil. *)
Record WorkspaceBinding : Type := mkWorkspaceBinding {
  wb_Name : string;
  wb_SubPath : string;
  wb_PersistentVolumeClaim : option PersistentVolumeClaimVolumeSource
}.

(** v1.ObjectMeta, restricted to the fields read or written here. *)
Record ObjectMeta : Type := mkObjectMeta {
  om_Name : string;
  om_GenerateName : string;
  om_Namespace : string;
  om_Labels : gmap string string;
  om_Annotations : gmap string string;
  om_Finalizers : list string
}.

(** tektonv1beta1.PipelineRunSpec *)
Record PipelineRunSpec : Type := mkPipelineRunSpec {
  spec_PipelineRef : option PipelineRef;
  spec_Params : list Param;
  spec_ServiceAccountName : string;
  spec_Workspaces : list WorkspaceBinding
}.

(** ReleasePipelineRun, a struct embedding tektonv1beta1.PipelineRun. *)
Record ReleasePipelineRun : Type := mkReleasePipelineRun {
  TypeMeta_Kind : string;
  ObjectMeta_ : ObjectMeta;
  Spec : PipelineRunSpec
}.

(** v1alpha1.ReleaseStrategy: one declared parameter and the spec. *)
Record StrategyParam : Type := mkStrategyParam {
  sp_Name : string;
  sp_Value : string;
  sp_Values : list string
}.

Record ReleaseStrategySpec : Type := mkReleaseStrategySpec {
  rs_Pipeline : string;
  rs_Bundle : string;
  rs_Params : list StrategyParam;
  rs_PersistentVolumeClaim : string;
  rs_ServiceAccount : string
}.

Record ReleaseStrategy : Type := mkReleaseStrategy {
  strategy_Spec : ReleaseStrategySpec
}.

(** v1alpha1.Release: its type and object metadata. *)
Record Release : Type := mkRelease {
  release_Kind : string;
  release_Group : string;
  release_Name : string;
  release_Namespace : string;
  release_Labels : gmap string string;
  release_Annotations : gmap string string
}.

(** corev1.ConfigMap: the Data map. *)
Record ConfigMap : Type := mkConfigMap {
  cm_Data : gmap string string
}.

(** Reading [m[k]] from a Go [map[string]string]: the zero value when the key
    is absent (also for a nil map). *)
Definition map_index (m : gmap string string) (k : string) : string :=
  default "" (m !! k).

(** The process environment read by os.Getenv: an unset variable reads as the
    empty string. *)
Definition Getenv (env : gmap string string) (k : string) : string :=
  default "" (env !! k).

(** Field updates, written out as the assignments of the source. *)
Definition set_Params (r : ReleasePipelineRun) (ps : list Param) : ReleasePipelineRun :=
  {| TypeMeta_Kind := TypeMeta_Kind r;
     ObjectMeta_ := ObjectMeta_ r;
     Spec := {| spec_PipelineRef := spec_PipelineRef (Spec r);
                spec_Params := ps;
                spec_ServiceAccountName := spec_ServiceAccountName (Spec r);
                spec_Workspaces := spec_Workspaces (Spec r) |} |}.

Definition set_PipelineRef (r : ReleasePipelineRun) (p : option PipelineRef) : ReleasePipelineRun :=
  {| TypeMeta_Kind := TypeMeta_Kind r;
     ObjectMeta_ := ObjectMeta_ r;
     Spec := {| spec_PipelineRef := p;
                spec_Params := spec_Params (Spec r);
                spec_ServiceAccountName := spec_ServiceAccountName (Spec r);
                spec_Workspaces := spec_Workspaces (Spec r) |} |}.

Definition set_ServiceAccountName (r : ReleasePipelineRun) (sa : string) : ReleasePipelineRun :=
  {| TypeMeta_Kind := TypeMeta_Kind r;
     ObjectMeta_ := ObjectMeta_ r;
     Spec := {| spec_PipelineRef := spec_PipelineRef (Spec r);
                spec_Params := spec_Params (Spec r);
                spec_ServiceAccountName := sa;
                spec_Workspaces := spec_Workspaces (Spec r) |} |}.

Definition set_Workspaces (r : ReleasePipelineRun) (ws : list WorkspaceBinding) : ReleasePipelineRun :=
  {| TypeMeta_Kind := TypeMeta_Kind r;
     ObjectMeta_ := ObjectMeta_ r;
     Spec := {| spec_PipelineRef := spec_PipelineRef (Spec r);
                spec_Params := spec_Params (Spec r);
                spec_ServiceAccountName := spec_ServiceAccountName (Spec r);
                spec_Workspaces := ws |} |}.

Definition set_Labels (r : ReleasePipelineRun) (l : gmap string string) : ReleasePipelineRun :=
  {| TypeMeta_Kind := TypeMeta_Kind r;
     ObjectMeta_ := {| om_Name := om_Name (ObjectMeta_ r);
                       om_GenerateName := om_GenerateName (ObjectMeta_ r);
                       om_Namespace := om_Namespace (ObjectMeta_ r);
                       om_Labels := l;
                       om_Annotations := om_Annotations (ObjectMeta_ r);
                       om_Finalizers := om_Finalizers (ObjectMeta_ r) |};
     Spec := Spec r |}.

Definition set_Annotations (r : ReleasePipelineRun) (a : gmap string string) : ReleasePipelineRun :=
  {| TypeMeta_Kind := TypeMeta_Kind r;
     ObjectMeta_ := {| om_Name := om_Name (ObjectMeta_ r);
                       om_GenerateName := om_GenerateName (ObjectMeta_ r);
                       om_Namespace := om_Namespace (ObjectMeta_ r);
                       om_Labels := om_Labels (ObjectMeta_ r);
                       om_Annotations := a;
                       om_Finalizers := om_Finalizers (ObjectMeta_ r) |};
     Spec := Spec r |}.

Definition set_Finalizers (r : ReleasePipelineRun) (f : list string) : ReleasePipelineRun :=
  {| TypeMeta_Kind := TypeMeta_Kind r;
     ObjectMeta_ := {| om_Name := om_Name (ObjectMeta_ r);
                       om_GenerateName := om_GenerateName (ObjectMeta_ r);
                       om_Namespace := om_Namespace (ObjectMeta_ r);
                       om_Labels := om_Labels (ObjectMeta_ r);
                       om_Annotations := om_Annotations (ObjectMeta_ r);
                       om_Finalizers := f |};
     Spec := Spec r |}.

(** ** The builder *)

(** The PipelineType constant. *)
Definition PipelineTypeRelease : string := "release".

(** NewReleasePipelineRun: an empty PipelineRun with only the name prefix and
    the namespace set. *)
Definition NewReleasePipelineRun (prefix namespace : string) : ReleasePipelineRun :=
  {| TypeMeta_Kind := "";
     ObjectMeta_ := {| om_Name := "";
                       om_GenerateName := prefix ++ "-";
                       om_Namespace := namespace;
                       om_Labels := ∅;
                       om_Annotations := ∅;
                       om_Finalizers := [] |};
     Spec := {| spec_PipelineRef := None;
                spec_Params := [];
                spec_ServiceAccountName := "";
                spec_Workspaces := [] |} |}.

(** WithExtraParam: append one Param. *)
Definition WithExtraParam (r : ReleasePipelineRun) (name : string) (value : ArrayOrString)
  : ReleasePipelineRun :=
  set_Params r (spec_Params (Spec r) ++ [ {| param_Name := name; param_Value := value |} ]).

(** A string-typed value, as the literal
    [ArrayOrString{Type: ParamTypeString, StringVal: s}]. *)
Definition string_value (s : string) : ArrayOrString :=
  {| aos_Type := ParamTypeString; aos_StringVal := s;
     aos_ArrayVal := []; aos_ObjectVal := ∅ |}.

(** WithEnterpriseContractConfigMap: one string param per git resolver field,
    in the order of the slice. *)
Definition gitResolverFields : list string :=
  [ "verify_ec_task_git_url"; "verify_ec_task_git_revision"; "verify_ec_task_git_pathInRepo" ].

Definition WithEnterpriseContractConfigMap (r : ReleasePipelineRun) (ecConfig : ConfigMap)
  : ReleasePipelineRun :=
  fold_left
    (fun acc field => WithExtraParam acc field (string_value (map_index (cm_Data ecConfig) field)))
    gitResolverFields r.

(** WithServiceAccount *)
Definition WithServiceAccount (r : ReleasePipelineRun) (serviceAccount : string)
  : ReleasePipelineRun :=
  set_ServiceAccountName r serviceAccount.

(** WithWorkspace: no workspace is added when either value is empty. *)
Definition WithWorkspace (r : ReleasePipelineRun) (name persistentVolumeClaim : string)
  : ReleasePipelineRun :=
  if bool_decide (name = "") || bool_decide (persistentVolumeClaim = "") then r
  else set_Workspaces r
         (spec_Workspaces (Spec r) ++
          [ {| wb_Name := name;
               wb_SubPath := "";
               wb_PersistentVolumeClaim :=
                 Some {| pvc_ClaimName := persistentVolumeClaim; pvc_ReadOnly := false |} |} ]).

(** getBundleResolver *)
Definition getBundleResolver (bundle pipeline : string) : ResolverRef :=
  {| rr_Resolver := "bundles";
     rr_Params :=
       [ {| param_Name := "bundle"; param_Value := string_value bundle |};
         {| param_Name := "kind"; param_Value := string_value "pipeline" |};
         {| param_Name := "name"; param_Value := string_value pipeline |} ] |}.

(** The zero ResolverRef of a PipelineRef literal that names no resolver. *)
Definition ResolverRef_zero : ResolverRef := {| rr_Resolver := ""; rr_Params := [] |}.

(** getPipelineRef *)
Definition getPipelineRef (strategy : ReleaseStrategy) : PipelineRef :=
  if bool_decide (rs_Bundle (strategy_Spec strategy) = "") then
    {| pref_Name := rs_Pipeline (strategy_Spec strategy);
       pref_APIVersion := ""; pref_Bundle := "";
       pref_ResolverRef := ResolverRef_zero |}
  else
    {| pref_Name := ""; pref_APIVersion := ""; pref_Bundle := "";
       pref_ResolverRef :=
         getBundleResolver (rs_Bundle (strategy_Spec strategy))
                           (rs_Pipeline (strategy_Spec strategy)) |}.

(** WithReleaseStrategy.  [valueType] is declared before the loop over the
    strategy's params and assigned inside it, so the loop threads it from one
    iteration to the next. *)
Definition strategy_param_step (st : ParamType * ReleasePipelineRun) (param : StrategyParam)
  : ParamType * ReleasePipelineRun :=
  let valueType :=
    if (0 <? length (sp_Values param))%nat then ParamTypeArray else fst st in
  (valueType,
   WithExtraParam (snd st) (sp_Name param)
     {| aos_Type := valueType;
        aos_StringVal := sp_Value param;
        aos_ArrayVal := sp_Values param;
        aos_ObjectVal := ∅ |}).

Definition strategy_params_loop (valueType : ParamType) (r : ReleasePipelineRun)
    (params : list StrategyParam) : ParamType * ReleasePipelineRun :=
  fold_left strategy_param_step params (valueType, r).

Definition WithReleaseStrategy (env : gmap string string) (r : ReleasePipelineRun)
    (strategy : ReleaseStrategy) : ReleasePipelineRun :=
  let r1 := set_PipelineRef r (Some (getPipelineRef strategy)) in
  let r2 := snd (strategy_params_loop ParamTypeString r1 (rs_Params (strategy_Spec strategy))) in
  let r3 :=
    if bool_decide (rs_PersistentVolumeClaim (strategy_Spec strategy) = "") then
      WithWorkspace r2 (Getenv env "DEFAULT_RELEASE_WORKSPACE_NAME") (Getenv env "DEFAULT_RELEASE_PVC")
    else
      WithWorkspace r2 (Getenv env "DEFAULT_RELEASE_WORKSPACE_NAME")
                    (rs_PersistentVolumeClaim (strategy_Spec strategy)) in
  WithServiceAccount r3 (rs_ServiceAccount (strategy_Spec strategy)).

(** The shape a strategy parameter has on its own: list-shaped when it carries
    more than zero list values, scalar-shaped otherwise. *)
Definition own_shape (param : StrategyParam) : ParamType :=
  if (0 <? length (sp_Values param))%nat then ParamTypeArray else ParamTypeString.

(** The Parameter invariant of the data model: the slot that the shape tag
    does not select holds the zero value of its type. *)
Definition alternate_slot_zero (v : ArrayOrString) : Prop :=
  match aos_Type v with
  | ParamTypeString => aos_ArrayVal v = []
  | ParamTypeArray => aos_StringVal v = ""
  end.

(** ** Metadata *)

(** The label keys, the finalizer and the Pipelines-as-Code prefix are
    package-level values of the metadata and gitops packages; the builder only
    names them, so they are taken as parameters. *)
Record MetadataNames : Type := mkMetadataNames {
  PipelinesTypeLabel : string;
  ReleaseNameLabel : string;
  ReleaseNamespaceLabel : string;
  ApplicationNameLabel : string;
  ReleaseFinalizer : string;
  PipelinesAsCodePrefix : string
}.

(** strings.HasPrefix *)
Fixpoint HasPrefix (s prefix : string) : bool :=
  match prefix, s with
  | EmptyString, _ => true
  | String p prefix', String c s' => bool_decide (c = p) && HasPrefix s' prefix'
  | String _ _, EmptyString => false
  end.

(** Modelled from the spec: metadata.GetLabelsWithPrefix and
    metadata.GetAnnotationsWithPrefix are not part of this file; they select
    every entry whose key carries the prefix, key and value verbatim. *)
Definition filterByPrefix (entries : gmap string string) (prefix : string) : gmap string string :=
  filter (fun kv => HasPrefix kv.1 prefix = true) entries.

Definition GetLabelsWithPrefix (release : Release) (prefix : string) : gmap string string :=
  filterByPrefix (release_Labels release) prefix.

Definition GetAnnotationsWithPrefix (release : Release) (prefix : string) : gmap string string :=
  filterByPrefix (release_Annotations release) prefix.

(** Modelled from the spec: metadata.AddLabels and metadata.AddAnnotations are
    not part of this file; they copy every given entry into the object's
    mapping, a copied entry replacing one already stored under its key. *)
Definition AddLabels (r : ReleasePipelineRun) (entries : gmap string string) : ReleasePipelineRun :=
  set_Labels r (entries ∪ om_Labels (ObjectMeta_ r)).

Definition AddAnnotations (r : ReleasePipelineRun) (entries : gmap string string)
  : ReleasePipelineRun :=
  set_Annotations r (entries ∪ om_Annotations (ObjectMeta_ r)).

(** The map literal of WithReleaseAndApplicationMetadata: its four
    key/value pairs in the order they are written. *)
Definition fixed_labels (names : MetadataNames) (release : Release) (applicationName : string)
  : gmap string string :=
  <[ApplicationNameLabel names := applicationName]>
    (<[ReleaseNamespaceLabel names := release_Namespace release]>
      (<[ReleaseNameLabel names := release_Name release]>
        (<[PipelinesTypeLabel names := PipelineTypeRelease]> ∅))).

(** WithReleaseAndApplicationMetadata *)
Definition WithReleaseAndApplicationMetadata (names : MetadataNames) (r : ReleasePipelineRun)
    (release : Release) (applicationName : string) : ReleasePipelineRun :=
  let r1 := set_Labels r (fixed_labels names release applicationName) in
  let r2 := AddAnnotations r1 (GetAnnotationsWithPrefix release (PipelinesAsCodePrefix names)) in
  AddLabels r2 (GetLabelsWithPrefix release (PipelinesAsCodePrefix names)).

(** ** Owner *)

(** An error value; only its presence matters here. *)
Definition error : Type := string.

(** controllerutil.AddFinalizer belongs to controller-runtime and is not
    part of this file; it adds the marker to the object's finalizers, and a
    marker that is already there is not added again. *)
Definition AddFinalizer (r : ReleasePipelineRun) (finalizer : string) : ReleasePipelineRun :=
  if bool_decide (finalizer ∈ om_Finalizers (ObjectMeta_ r)) then r
  else set_Finalizers r (om_Finalizers (ObjectMeta_ r) ++ [finalizer]).

(** WithOwner.  libhandler.SetOwnerAnnotations (operator-lib) is a parameter:
    it is given the release and the PipelineRun, updates the PipelineRun and
    returns an error or nil.  The error is assigned to the blank
    identifier. *)
Definition WithOwner (names : MetadataNames)
    (SetOwnerAnnotations : Release -> ReleasePipelineRun -> ReleasePipelineRun * option error)
    (r : ReleasePipelineRun) (release : Release) : ReleasePipelineRun :=
  let '(r1, _) := SetOwnerAnnotations release r in
  AddFinalizer r1 (ReleaseFinalizer names).

(** operator-lib's SetOwnerAnnotations as its documentation describes it: an
    owner without a name or without a kind is refused and the object is left
    as it was; otherwise the two owner annotations are written. *)
Definition NamespacedNameAnnotation : string := "operator-sdk/primary-resource".
Definition TypeAnnotation : string := "operator-sdk/primary-resource-type".

Definition GroupKind_String (kind group : string) : string :=
  if bool_decide (group = "") then kind else kind ++ "." ++ group.

Definition handler_SetOwnerAnnotations (owner : Release) (object : ReleasePipelineRun)
  : ReleasePipelineRun * option error :=
  if bool_decide (release_Name owner = "") then
    (object, Some "owner does not have a name, cannot call SetOwnerAnnotations")
  else if bool_decide (release_Kind owner = "") then
    (object, Some "owner Kind not found, cannot call SetOwnerAnnotations")
  else
    (set_Annotations object
       (<[TypeAnnotation := GroupKind_String (release_Kind owner) (release_Group owner)]>
          (<[NamespacedNameAnnotation := release_Namespace owner ++ "/" ++ release_Name owner]>
             (om_Annotations (ObjectMeta_ object)))),
     None).

(** ** Strings and runes

    [[]rune(s)] decodes the bytes of [s] as UTF-8 and [string(runes)] encodes
    them again; both follow the Go runtime (decoderune, encoderune).  A rune
    is an int32, a byte a number below 256. *)

Local Open Scope Z_scope.

Definition rune : Type := Z.

Definition byte_val (c : ascii) : Z := Z.of_N (N_of_ascii c).

(** The conversion [byte(x)] keeps the low eight bits. *)
Definition to_byte (x : Z) : Z := x mod 256.

Definition byte_chr (b : Z) : ascii := ascii_of_N (Z.to_N (to_byte b)).

Definition bytes_of_string (s : string) : list Z := map byte_val (list_ascii_of_string s).

Definition string_of_bytes (l : list Z) : string := string_of_list_ascii (map byte_chr l).

Definition runeError : rune := 0xFFFD.
Definition runeSelf : Z := 0x80.
Definition maxRune : rune := 0x10FFFF.
Definition surrogateMin : rune := 0xD800.
Definition surrogateMax : rune := 0xDFFF.
Definition t2 : Z := 0xC0.
Definition t3 : Z := 0xE0.
Definition t4 : Z := 0xF0.
Definition t5 : Z := 0xF8.
Definition tx : Z := 0x80.
Definition maskx : Z := 0x3F.
Definition mask2 : Z := 0x1F.
Definition mask3 : Z := 0x0F.
Definition mask4 : Z := 0x07.
Definition rune1Max : rune := 0x7F.
Definition rune2Max : rune := 0x7FF.
Definition rune3Max : rune := 0xFFFF.
Definition locb : Z := 0x80.
Definition hicb : Z := 0xBF.

(** [locb <= b && b <= hicb]: [b] is a continuation byte. *)
Definition is_cont (b : Z) : bool := (locb <=? b) && (b <=? hicb).

(** decoderune on the bytes from the current position: the rune and the
    number of bytes it takes.  A sequence that is cut short, overlong, a
    surrogate or above maxRune decodes to runeError of width one. *)
Definition decoderune (s : list Z) : rune * nat :=
  match s with
  | [] => (runeError, 1%nat)
  | s0 :: rest =>
      if (t2 <=? s0) && (s0 <? t3) then
        match rest with
        | s1 :: _ =>
            if is_cont s1 then
              let r := Z.lor (Z.shiftl (Z.land s0 mask2) 6) (Z.land s1 maskx) in
              if rune1Max <? r then (r, 2%nat) else (runeError, 1%nat)
            else (runeError, 1%nat)
        | _ => (runeError, 1%nat)
        end
      else if (t3 <=? s0) && (s0 <? t4) then
        match rest with
        | s1 :: s2 :: _ =>
            if is_cont s1 && is_cont s2 then
              let r := Z.lor (Z.lor (Z.shiftl (Z.land s0 mask3) 12)
                                    (Z.shiftl (Z.land s1 maskx) 6))
                             (Z.land s2 maskx) in
              if (rune2Max <? r) && negb ((surrogateMin <=? r) && (r <=? surrogateMax))
              then (r, 3%nat) else (runeError, 1%nat)
            else (runeError, 1%nat)
        | _ => (runeError, 1%nat)
        end
      else if (t4 <=? s0) && (s0 <? t5) then
        match rest with
        | s1 :: s2 :: s3 :: _ =>
            if is_cont s1 && is_cont s2 && is_cont s3 then
              let r := Z.lor (Z.lor (Z.lor (Z.shiftl (Z.land s0 mask4) 18)
                                           (Z.shiftl (Z.land s1 maskx) 12))
                                    (Z.shiftl (Z.land s2 maskx) 6))
                             (Z.land s3 maskx) in
              if (rune3Max <? r) && (r <=? maxRune) then (r, 4%nat) else (runeError, 1%nat)
            else (runeError, 1%nat)
        | _ => (runeError, 1%nat)
        end
      else (runeError, 1%nat)
  end.

(** One iteration of [for _, r := range s]: a byte below runeSelf is the rune
    itself, anything else goes through decoderune. *)
Definition range_step (s : list Z) : rune * nat :=
  match s with
  | [] => (runeError, 1%nat)
  | b :: _ => if b <? runeSelf then (b, 1%nat) else decoderune s
  end.

(** The range loop; every iteration consumes at least one byte, so the number
    of bytes bounds the number of iterations. *)
Fixpoint range_runes (fuel : nat) (s : list Z) : list rune :=
  match fuel with
  | O => []
  | S fuel' =>
      match s with
      | [] => []
      | _ :: _ => let '(r, w) := range_step s in r :: range_runes fuel' (drop w s)
      end
  end.

(** [[]rune(s)] *)
Definition stringtoslicerune (s : string) : list rune :=
  range_runes (length (bytes_of_string s)) (bytes_of_string s).

Definition encode3 (r : rune) : list Z :=
  [ Z.lor t3 (to_byte (Z.shiftr r 12));
    Z.lor tx (Z.land (to_byte (Z.shiftr r 6)) maskx);
    Z.lor tx (Z.land (to_byte r) maskx) ].

(** encoderune: the UTF-8 bytes of a rune; a surrogate or a value outside
    the rune range is written as runeError.  The switch is on [uint32(r)]. *)
Definition encoderune (r : rune) : list Z :=
  let i := r mod 2 ^ 32 in
  if i <=? rune1Max then [ to_byte r ]
  else if i <=? rune2Max then
    [ Z.lor t2 (to_byte (Z.shiftr r 6)); Z.lor tx (Z.land (to_byte r) maskx) ]
  else if (maxRune <? i) || ((surrogateMin <=? i) && (i <=? surrogateMax)) then
    encode3 runeError
  else if i <=? rune3Max then encode3 r
  else
    [ Z.lor t4 (to_byte (Z.shiftr r 18));
      Z.lor tx (Z.land (to_byte (Z.shiftr r 12)) maskx);
      Z.lor tx (Z.land (to_byte (Z.shiftr r 6)) maskx);
      Z.lor tx (Z.land (to_byte r) maskx) ].

(** [string(runes)] *)
Definition slicerunetostring (rs : list rune) : string :=
  string_of_bytes (concat (map encoderune rs)).

(** unicode.ToLower: the ASCII range is handled in place; for the other
    runes the mapping of the Unicode case tables is a parameter. *)
Definition MaxASCII : rune := 0x7F.

Definition unicode_ToLower (case_table_lower : rune -> rune) (r : rune) : rune :=
  if r <=? MaxASCII then
    if (65 <=? r) && (r <=? 90) then r + (97 - 65) else r
  else case_table_lower r.

(** A rune that encoderune writes as itself. *)
Definition valid_rune (r : rune) : Prop :=
  0 <= r <= maxRune /\ ~ (surrogateMin <= r <= surrogateMax).

Definition valid_runeb (r : rune) : bool :=
  (0 <=? r) && (r <=? maxRune) && negb ((surrogateMin <=? r) && (r <=? surrogateMax)).

(** What a rune reads back as after [string(...)]: itself, or runeError. *)
Definition written_rune (r : rune) : rune :=
  if valid_runeb (r mod 2 ^ 32) then r mod 2 ^ 32 else runeError.

(** The bytes of one well-formed UTF-8 character, by the byte ranges of the
    Unicode standard: no overlong form, no surrogate, nothing above
    U+10FFFF. *)
Definition utf8_char (bs : list Z) : Prop :=
  match bs with
  | [b0] => 0 <= b0 <= 0x7F
  | [b0; b1] => 0xC2 <= b0 <= 0xDF /\ 0x80 <= b1 <= 0xBF
  | [b0; b1; b2] =>
      0x80 <= b2 <= 0xBF
      /\ ((b0 = 0xE0 /\ 0xA0 <= b1 <= 0xBF)
          \/ ((0xE1 <= b0 <= 0xEC \/ 0xEE <= b0 <= 0xEF) /\ 0x80 <= b1 <= 0xBF)
          \/ (b0 = 0xED /\ 0x80 <= b1 <= 0x9F))
  | [b0; b1; b2; b3] =>
      0x80 <= b2 <= 0xBF /\ 0x80 <= b3 <= 0xBF
      /\ ((b0 = 0xF0 /\ 0x90 <= b1 <= 0xBF)
          \/ (0xF1 <= b0 <= 0xF3 /\ 0x80 <= b1 <= 0xBF)
          \/ (b0 = 0xF4 /\ 0x80 <= b1 <= 0x8F))
  | _ => False
  end.

(** Well-formed UTF-8: a sequence of well-formed characters. *)
Inductive utf8_well_formed : list Z -> Prop :=
  | utf8_empty : utf8_well_formed []
  | utf8_next (c rest : list Z) :
      utf8_char c -> utf8_well_formed rest -> utf8_well_formed (c ++ rest).

(** ** Policy and object references *)

(** ecapiv1alpha1.EnterpriseContractPolicy: its kind and its spec, whose type
    belongs to the policy API and is left abstract. *)
Record EnterpriseContractPolicy (PolicySpec : Type) : Type := mkEnterpriseContractPolicy {
  ecp_Kind : string;
  ecp_Spec : PolicySpec
}.
Arguments mkEnterpriseContractPolicy {PolicySpec} _ _.
Arguments ecp_Kind {PolicySpec} _.
Arguments ecp_Spec {PolicySpec} _.

(** How a call ends: it returns a value, or the run-time system panics. *)
Inductive outcome (A : Type) : Type :=
  | Returns (a : A)
  | Panics (msg : string).
Arguments Returns {A} a.
Arguments Panics {A} msg.

(** WithEnterpriseContractPolicy.  json.Marshal is a parameter returning the
    bytes and an error; the error is assigned to the blank identifier.
    Indexing the rune slice at 0 panics when the slice is empty. *)
Definition WithEnterpriseContractPolicy {PolicySpec : Type}
    (json_Marshal : PolicySpec -> string * option error)
    (case_table_lower : rune -> rune)
    (r : ReleasePipelineRun) (enterpriseContractPolicy : EnterpriseContractPolicy PolicySpec)
  : outcome ReleasePipelineRun :=
  let '(policyJson, _) := json_Marshal (ecp_Spec enterpriseContractPolicy) in
  let policyKindRunes := stringtoslicerune (ecp_Kind enterpriseContractPolicy) in
  match policyKindRunes with
  | [] => Panics "runtime error: index out of range [0] with length 0"
  | r0 :: rest =>
      let policyKindRunes' := unicode_ToLower case_table_lower r0 :: rest in
      Returns (WithExtraParam r (slicerunetostring policyKindRunes') (string_value policyJson))
  end.

(** A client.Object as WithObjectReferences reads it. *)
Record ClientObject : Type := mkClientObject {
  obj_Kind : string;
  obj_Namespace : string;
  obj_Name : string
}.

(** WithObjectReferences; strings.ToLower is a parameter, and
    types.Separator is the character '/'. *)
Definition WithObjectReferences (strings_ToLower : string -> string)
    (r : ReleasePipelineRun) (objects : list ClientObject) : ReleasePipelineRun :=
  fold_left
    (fun acc object =>
       WithExtraParam acc (strings_ToLower (obj_Kind object))
         (string_value (obj_Namespace object ++ "/" ++ obj_Name object)%string))
    objects r.

(** ** Definitions used by the statements *)

Local Close Scope Z_scope.
Local Open Scope list_scope.

(** The Params the loop of WithReleaseStrategy appends, given the value of
    [valueType] on entry. *)
Fixpoint assembled_params (valueType : ParamType) (params : list StrategyParam) : list Param :=
  match params with
  | [] => []
  | param :: params' =>
      let valueType' :=
        if (0 <? length (sp_Values param))%nat then ParamTypeArray else valueType in
      {| param_Name := sp_Name param;
         param_Value := {| aos_Type := valueType';
                           aos_StringVal := sp_Value param;
                           aos_ArrayVal := sp_Values param;
                           aos_ObjectVal := ∅ |} |}
      :: assembled_params valueType' params'
  end.

(** A strategy whose second parameter has no list values and follows one
    that has. *)
Definition strategy_list_then_scalar : ReleaseStrategy :=
  {| strategy_Spec :=
       {| rs_Pipeline := "deploy"; rs_Bundle := "";
          rs_Params := [ {| sp_Name := "targets"; sp_Value := ""; sp_Values := ["a"; "b"] |};
                         {| sp_Name := "verbose"; sp_Value := "true"; sp_Values := [] |} ];
          rs_PersistentVolumeClaim := ""; rs_ServiceAccount := "sa" |} |}.

(** A strategy with one parameter that carries both a single value and a
    list of values. *)
Definition strategy_both_slots : ReleaseStrategy :=
  {| strategy_Spec :=
       {| rs_Pipeline := "deploy"; rs_Bundle := "";
          rs_Params := [ {| sp_Name := "targets"; sp_Value := "v"; sp_Values := ["a"] |} ];
          rs_PersistentVolumeClaim := ""; rs_ServiceAccount := "sa" |} |}.

(** The strategy of the spec's first end-to-end scenario. *)
Definition strategy_build : ReleaseStrategy :=
  {| strategy_Spec :=
       {| rs_Pipeline := "build"; rs_Bundle := "";
          rs_Params := [ {| sp_Name := "verbose"; sp_Value := "true"; sp_Values := [] |} ];
          rs_PersistentVolumeClaim := "pvc-1"; rs_ServiceAccount := "" |} |}.

(** The strategy of the spec's second end-to-end scenario. *)
Definition strategy_bundle : ReleaseStrategy :=
  {| strategy_Spec :=
       {| rs_Pipeline := "deploy"; rs_Bundle := "quay.io/foo:v1";
          rs_Params := [];
          rs_PersistentVolumeClaim := ""; rs_ServiceAccount := "" |} |}.

Definition env_release_ws : gmap string string :=
  {[ "DEFAULT_RELEASE_WORKSPACE_NAME" := "release-ws" ]}.

(** Names as the metadata and gitops packages could define them: four
    distinct label keys, none under the Pipelines-as-Code prefix. *)
Definition sample_names : MetadataNames :=
  {| PipelinesTypeLabel := "pipelines.appstudio.openshift.io/type";
     ReleaseNameLabel := "release.appstudio.openshift.io/name";
     ReleaseNamespaceLabel := "release.appstudio.openshift.io/namespace";
     ApplicationNameLabel := "appstudio.openshift.io/application";
     ReleaseFinalizer := "appstudio.redhat.com/release-finalizer";
     PipelinesAsCodePrefix := "pac.test.appstudio.openshift.io" |}.

Definition sample_release : Release :=
  {| release_Kind := "Release"; release_Group := "appstudio.redhat.com";
     release_Name := "rel-1"; release_Namespace := "dev";
     release_Labels := {[ "pac.test.appstudio.openshift.io/sha" := "abc" ]};
     release_Annotations := ∅ |}.

(** A release object without a name: SetOwnerAnnotations refuses it. *)
Definition nameless_release : Release :=
  {| release_Kind := "Release"; release_Group := "appstudio.redhat.com";
     release_Name := ""; release_Namespace := "dev";
     release_Labels := ∅; release_Annotations := ∅ |}.

(** A json.Marshal stand-in for a policy spec that is already its own
    serialization; it never fails. *)
Definition marshal_id (payload : string) : string * option error := (payload, None).

(** A policy of the kind the controller passes in. *)
Definition sample_policy : EnterpriseContractPolicy string :=
  {| ecp_Kind := "EnterpriseContractPolicy"; ecp_Spec := "{}" |}.

(** A policy whose kind is the letter K followed by the byte 0xFF, which no
    UTF-8 character contains. *)
Definition ill_formed_policy : EnterpriseContractPolicy string :=
  {| ecp_Kind := String "K" (String "255" ""); ecp_Spec := "{}" |}.

(** A case table that knows one pair: U+00C9 has the lower case U+00E9. *)
Definition sample_case_table (r : rune) : rune :=
  if (r =? 201)%Z then 233%Z else r.

(** A policy whose kind starts with a two-byte character (U+00C9). *)
Definition accented_policy : EnterpriseContractPolicy string :=
  {| ecp_Kind := String "195" (String "137" "cole"); ecp_Spec := "{}" |}.

(** The four fixed label keys in the order of the map literal. *)
Definition fixed_label_keys (names : MetadataNames) : list string :=
  [ PipelinesTypeLabel names; ReleaseNameLabel names;
    ReleaseNamespaceLabel names; ApplicationNameLabel names ].

(** The fields that identify the object: kind, name, name prefix and
    namespace. *)
Definition run_identity (r : ReleasePipelineRun) : string * string * string * string :=
  (TypeMeta_Kind r, om_Name (ObjectMeta_ r), om_GenerateName (ObjectMeta_ r),
   om_Namespace (ObjectMeta_ r)).

(** A mutator that rewrites the Spec from the Spec alone and leaves the type
    and object metadata as they are. *)
Definition spec_only (f : ReleasePipelineRun -> ReleasePipelineRun) : Prop :=
  exists g : PipelineRunSpec -> PipelineRunSpec,
    forall r, f r = {| TypeMeta_Kind := TypeMeta_Kind r;
                       ObjectMeta_ := ObjectMeta_ r;
                       Spec := g (Spec r) |}.

(** The binding WithWorkspace appends. *)
Definition claim_binding (name persistentVolumeClaim : string) : WorkspaceBinding :=
  {| wb_Name := name; wb_SubPath := "";
     wb_PersistentVolumeClaim :=
       Some {| pvc_ClaimName := persistentVolumeClaim; pvc_ReadOnly := false |} |}.

(** An environment with both workspace defaults set. *)
Definition env_both_defaults : gmap string string :=
  {[ "DEFAULT_RELEASE_WORKSPACE_NAME" := "release-ws";
     "DEFAULT_RELEASE_PVC" := "default-pvc" ]}.

(** Two objects of the same kind and one of another. *)
Definition sample_objects : list ClientObject :=
  [ {| obj_Kind := "Snapshot"; obj_Namespace := "dev"; obj_Name := "snap-1" |};
    {| obj_Kind := "Snapshot"; obj_Namespace := "dev"; obj_Name := "snap-2" |};
    {| obj_Kind := "ReleasePlan"; obj_Namespace := "managed"; obj_Name := "plan" |} ].

(** A run that already carries a label of its own. *)
Definition labelled_run : ReleasePipelineRun :=
  set_Labels (NewReleasePipelineRun "release" "dev") {[ "team" := "blue" ]}.

(** ** Basic facts about the mutators *)

Lemma WithExtraParam_Params (r : ReleasePipelineRun) (name : string) (value : ArrayOrString) :
  spec_Params (Spec (WithExtraParam r name value))
  = spec_Params (Spec r) ++ [ {| param_Name := name; param_Value := value |} ].
Proof. reflexivity. Qed.

Lemma WithWorkspace_Params (r : ReleasePipelineRun) (name claim : string) :
  spec_Params (Spec (WithWorkspace r name claim)) = spec_Params (Spec r).
Proof. unfold WithWorkspace. destruct (_ || _); reflexivity. Qed.

Lemma strategy_params_loop_Params (params : list StrategyParam) :
  forall (valueType : ParamType) (r : ReleasePipelineRun),
    spec_Params (Spec (snd (strategy_params_loop valueType r params)))
    = spec_Params (Spec r) ++ assembled_params valueType params.
Proof.
  unfold strategy_params_loop.
  induction params as [|param params IH]; intros valueType r; simpl.
  - symmetry. apply app_nil_r.
  - unfold strategy_param_step at 2. simpl.
    rewrite IH, WithExtraParam_Params, <- app_assoc. reflexivity.
Qed.

Lemma WithReleaseStrategy_Params (env : gmap string string) (r : ReleasePipelineRun)
    (strategy : ReleaseStrategy) :
  spec_Params (Spec (WithReleaseStrategy env r strategy))
  = spec_Params (Spec r)
    ++ assembled_params ParamTypeString (rs_Params (strategy_Spec strategy)).
Proof.
  unfold WithReleaseStrategy, WithServiceAccount. simpl.
  destruct (bool_decide _); rewrite WithWorkspace_Params;
    rewrite strategy_params_loop_Params; reflexivity.
Qed.

(** The parameter at position [i] of the strategy is assembled from the
    incoming [valueType] and the parameters up to [i]: both slots are copied,
    and the tag is list-shaped as soon as its own list is non-empty. *)
Lemma assembled_params_lookup (params : list StrategyParam) :
  forall (valueType : ParamType) (i : nat) (param : StrategyParam),
    params !! i = Some param ->
    exists q, assembled_params valueType params !! i = Some q
      /\ param_Name q = sp_Name param
      /\ aos_StringVal (param_Value q) = sp_Value param
      /\ aos_ArrayVal (param_Value q) = sp_Values param
      /\ (sp_Values param <> [] -> aos_Type (param_Value q) = ParamTypeArray).
Proof.
  induction params as [|p params IH]; intros valueType i param Hi.
  - discriminate.
  - destruct i as [|i]; simpl in Hi.
    + injection Hi as ->. eexists. split; [reflexivity|]. simpl.
      repeat split. intros Hne. destruct (sp_Values param); [congruence | reflexivity].
    + simpl. apply IH. exact Hi.
Qed.

(** As long as no parameter so far has list values, the tag stays scalar. *)
Lemma assembled_params_all_scalar (params : list StrategyParam) :
  Forall (fun p => sp_Values p = []) params ->
  Forall (fun q => aos_Type (param_Value q) = ParamTypeString)
         (assembled_params ParamTypeString params).
Proof.
  induction 1 as [|p params Hp _ IH]; simpl; [constructor|].
  rewrite Hp. simpl. constructor; [reflexivity | exact IH].
Qed.

(** ** Pipeline reference *)

(** C4: for a strategy with a non-empty bundle locator B and pipeline name P,
    getPipelineRef returns a reference with no direct name whose resolver is
    the literal "bundles" and whose parameters are exactly the three string
    parameters bundle=B, kind="pipeline", name=P, in that order. *)
Theorem getPipelineRef_bundle (strategy : ReleaseStrategy) :
  rs_Bundle (strategy_Spec strategy) <> "" ->
  getPipelineRef strategy
  = {| pref_Name := ""; pref_APIVersion := ""; pref_Bundle := "";
       pref_ResolverRef :=
         {| rr_Resolver := "bundles";
            rr_Params :=
              [ {| param_Name := "bundle";
                   param_Value := {| aos_Type := ParamTypeString;
                                     aos_StringVal := rs_Bundle (strategy_Spec strategy);
                                     aos_ArrayVal := []; aos_ObjectVal := ∅ |} |};
                {| param_Name := "kind";
                   param_Value := {| aos_Type := ParamTypeString;
                                     aos_StringVal := "pipeline";
                                     aos_ArrayVal := []; aos_ObjectVal := ∅ |} |};
                {| param_Name := "name";
                   param_Value := {| aos_Type := ParamTypeString;
                                     aos_StringVal := rs_Pipeline (strategy_Spec strategy);
                                     aos_ArrayVal := []; aos_ObjectVal := ∅ |} |} ] |} |}.
Proof.
  intros Hbundle. unfold getPipelineRef.
  rewrite bool_decide_eq_false_2 by exact Hbundle. reflexivity.
Qed.

Lemma getPipelineRef_bundle_witness :
  rs_Bundle (strategy_Spec strategy_bundle) <> ""
  /\ rr_Params (pref_ResolverRef (getPipelineRef strategy_bundle))
     = [ {| param_Name := "bundle"; param_Value := string_value "quay.io/foo:v1" |};
         {| param_Name := "kind"; param_Value := string_value "pipeline" |};
         {| param_Name := "name"; param_Value := string_value "deploy" |} ].
Proof.
  assert (Hne : rs_Bundle (strategy_Spec strategy_bundle) <> "") by discriminate.
  split; [exact Hne|].
  rewrite (getPipelineRef_bundle strategy_bundle Hne). reflexivity.
Defined.

(** C5: for a strategy whose bundle locator is the empty string,
    getPipelineRef returns the direct-name reference carrying the strategy's
    pipeline name as it is (also when that name is empty); the resolver part
    is the zero value: no resolver name and no resolver parameters. *)
Theorem getPipelineRef_direct (strategy : ReleaseStrategy) :
  rs_Bundle (strategy_Spec strategy) = "" ->
  getPipelineRef strategy
  = {| pref_Name := rs_Pipeline (strategy_Spec strategy);
       pref_APIVersion := ""; pref_Bundle := "";
       pref_ResolverRef := {| rr_Resolver := ""; rr_Params := [] |} |}.
Proof.
  intros Hbundle. unfold getPipelineRef.
  rewrite bool_decide_eq_true_2 by exact Hbundle. reflexivity.
Qed.

Lemma getPipelineRef_direct_witness :
  rs_Bundle (strategy_Spec strategy_build) = ""
  /\ pref_Name (getPipelineRef strategy_build) = "build"
  /\ rr_Resolver (pref_ResolverRef (getPipelineRef strategy_build)) = "".
Proof.
  assert (He : rs_Bundle (strategy_Spec strategy_build) = "") by reflexivity.
  split; [exact He|].
  rewrite (getPipelineRef_direct strategy_build He). split; reflexivity.
Defined.

(** ** Workspace *)

(** C6: on a specification without workspace bindings, WithWorkspace with an
    empty name or an empty claim returns the specification as it was, so the
    bindings stay unset; with both non-empty, exactly one binding is present
    afterwards, holding that name and that claim. *)
Theorem WithWorkspace_binding (r : ReleasePipelineRun) (name claim : string) :
  spec_Workspaces (Spec r) = [] ->
  (name = "" \/ claim = "" ->
     WithWorkspace r name claim = r
     /\ spec_Workspaces (Spec (WithWorkspace r name claim)) = [])
  /\ (name <> "" -> claim <> "" ->
     spec_Workspaces (Spec (WithWorkspace r name claim))
     = [ {| wb_Name := name; wb_SubPath := "";
            wb_PersistentVolumeClaim :=
              Some {| pvc_ClaimName := claim; pvc_ReadOnly := false |} |} ]).
Proof.
  intros Hnone. unfold WithWorkspace. split.
  - intros Hempty.
    assert (Hguard : bool_decide (name = "") || bool_decide (claim = "") = true).
    { destruct Hempty as [-> | ->]; [reflexivity|].
      rewrite (bool_decide_eq_true_2 ("" = "")) by reflexivity. apply orb_true_r. }
    rewrite Hguard. split; [reflexivity | exact Hnone].
  - intros Hname Hclaim.
    rewrite (bool_decide_eq_false_2 _ Hname), (bool_decide_eq_false_2 _ Hclaim).
    simpl. rewrite Hnone. reflexivity.
Qed.

Lemma WithWorkspace_binding_witness :
  spec_Workspaces (Spec (WithWorkspace (NewReleasePipelineRun "release" "dev") "release-ws" ""))
  = []
  /\ spec_Workspaces
       (Spec (WithWorkspace (NewReleasePipelineRun "release" "dev") "release-ws" "pvc-1"))
     = [ {| wb_Name := "release-ws"; wb_SubPath := "";
            wb_PersistentVolumeClaim :=
              Some {| pvc_ClaimName := "pvc-1"; pvc_ReadOnly := false |} |} ].
Proof.
  split.
  - apply (WithWorkspace_binding (NewReleasePipelineRun "release" "dev") "release-ws" "");
      [reflexivity | right; reflexivity].
  - apply (WithWorkspace_binding (NewReleasePipelineRun "release" "dev") "release-ws" "pvc-1");
      [reflexivity | discriminate | discriminate].
Defined.

(** ** Enterprise contract config map *)

(** C9: WithEnterpriseContractConfigMap appends exactly three string
    parameters named verify_ec_task_git_url, verify_ec_task_git_revision and
    verify_ec_task_git_pathInRepo, in that order; each value is the entry of
    the config map under the same key, and the empty string when the key is
    absent.  The function returns for every config map. *)
Theorem WithEnterpriseContractConfigMap_params (r : ReleasePipelineRun) (ecConfig : ConfigMap) :
  spec_Params (Spec (WithEnterpriseContractConfigMap r ecConfig))
  = spec_Params (Spec r)
    ++ [ {| param_Name := "verify_ec_task_git_url";
            param_Value :=
              {| aos_Type := ParamTypeString;
                 aos_StringVal := default "" (cm_Data ecConfig !! "verify_ec_task_git_url");
                 aos_ArrayVal := []; aos_ObjectVal := ∅ |} |};
         {| param_Name := "verify_ec_task_git_revision";
            param_Value :=
              {| aos_Type := ParamTypeString;
                 aos_StringVal := default "" (cm_Data ecConfig !! "verify_ec_task_git_revision");
                 aos_ArrayVal := []; aos_ObjectVal := ∅ |} |};
         {| param_Name := "verify_ec_task_git_pathInRepo";
            param_Value :=
              {| aos_Type := ParamTypeString;
                 aos_StringVal := default "" (cm_Data ecConfig !! "verify_ec_task_git_pathInRepo");
                 aos_ArrayVal := []; aos_ObjectVal := ∅ |} |} ]
  /\ (forall field, field ∈ gitResolverFields -> cm_Data ecConfig !! field = None ->
        map_index (cm_Data ecConfig) field = "").
Proof.
  split.
  - unfold WithEnterpriseContractConfigMap, gitResolverFields. simpl.
    rewrite <- !app_assoc. reflexivity.
  - intros field _ Habsent. unfold map_index. rewrite Habsent. reflexivity.
Qed.

(** With an empty config map all three values are empty strings. *)
Example WithEnterpriseContractConfigMap_empty :
  map (fun p => (param_Name p, aos_StringVal (param_Value p)))
      (spec_Params (Spec (WithEnterpriseContractConfigMap
                            (NewReleasePipelineRun "release" "dev") {| cm_Data := ∅ |})))
  = [ ("verify_ec_task_git_url", ""); ("verify_ec_task_git_revision", "");
      ("verify_ec_task_git_pathInRepo", "") ].
Proof. reflexivity. Qed.

Lemma WithEnterpriseContractConfigMap_params_witness :
  "verify_ec_task_git_revision" ∈ gitResolverFields
  /\ cm_Data {| cm_Data := {[ "verify_ec_task_git_url" := "https://example.test/repo" ]} |}
       !! "verify_ec_task_git_revision" = None
  /\ map_index
       (cm_Data {| cm_Data := {[ "verify_ec_task_git_url" := "https://example.test/repo" ]} |})
       "verify_ec_task_git_revision" = "".
Proof.
  assert (Hin : "verify_ec_task_git_revision" ∈ gitResolverFields).
  { unfold gitResolverFields. apply list_elem_of_In. simpl. tauto. }
  assert (Habsent :
    cm_Data {| cm_Data := {[ "verify_ec_task_git_url" := "https://example.test/repo" ]} |}
      !! "verify_ec_task_git_revision" = None) by reflexivity.
  split; [exact Hin | split; [exact Habsent|]].
  exact (proj2 (WithEnterpriseContractConfigMap_params
                  (NewReleasePipelineRun "release" "dev")
                  {| cm_Data := {[ "verify_ec_task_git_url" := "https://example.test/repo" ]} |})
               "verify_ec_task_git_revision" Hin Habsent).
Defined.

(** ** Strategy parameters *)

(** C1: WithReleaseStrategy keeps the shape tag in one variable for the whole
    loop.  On a strategy whose first parameter has list values and whose
    second has none, the second Param comes out list-shaped although on its
    own it is scalar-shaped: the tag of a parameter depends on the
    parameters before it. *)
Theorem WithReleaseStrategy_shape_carries_over :
  spec_Params
    (Spec (WithReleaseStrategy ∅ (NewReleasePipelineRun "release" "dev")
                               strategy_list_then_scalar))
  = [ {| param_Name := "targets";
         param_Value := {| aos_Type := ParamTypeArray; aos_StringVal := "";
                           aos_ArrayVal := ["a"; "b"]; aos_ObjectVal := ∅ |} |};
      {| param_Name := "verbose";
         param_Value := {| aos_Type := ParamTypeArray; aos_StringVal := "true";
                           aos_ArrayVal := []; aos_ObjectVal := ∅ |} |} ]
  /\ own_shape {| sp_Name := "verbose"; sp_Value := "true"; sp_Values := [] |}
     = ParamTypeString.
Proof. split; reflexivity. Qed.

(** The same parameter alone, or after parameters without list values, is
    scalar-shaped. *)
Example WithReleaseStrategy_scalar_alone :
  spec_Params
    (Spec (WithReleaseStrategy env_release_ws (NewReleasePipelineRun "release" "dev")
                               strategy_build))
  = [ {| param_Name := "verbose"; param_Value := string_value "true" |} ].
Proof. reflexivity. Qed.

(** C3, as stated, fails: a strategy parameter that carries both a single
    value and a list of values is assembled with both slots populated. *)
Lemma WithReleaseStrategy_both_slots_populated :
  ~ Forall (fun q => alternate_slot_zero (param_Value q))
      (spec_Params
         (Spec (WithReleaseStrategy ∅ (NewReleasePipelineRun "release" "dev")
                                    strategy_both_slots))).
Proof.
  intros Hall. apply Forall_inv in Hall. discriminate Hall.
Qed.

(** C3, amended: every strategy parameter is assembled, at its position
    after the parameters already present, into a Param whose scalar slot and
    list slot are copies of the parameter's single value and list.  A
    scalar-shaped Param therefore has an empty list slot; a Param whose
    strategy parameter has list values is list-shaped and its scalar slot is
    empty exactly when the parameter's single value is empty. *)
Theorem WithReleaseStrategy_slots (env : gmap string string) (r : ReleasePipelineRun)
    (strategy : ReleaseStrategy) (i : nat) (param : StrategyParam) :
  rs_Params (strategy_Spec strategy) !! i = Some param ->
  exists q,
    spec_Params (Spec (WithReleaseStrategy env r strategy))
      !! (length (spec_Params (Spec r)) + i)%nat = Some q
    /\ param_Name q = sp_Name param
    /\ aos_StringVal (param_Value q) = sp_Value param
    /\ aos_ArrayVal (param_Value q) = sp_Values param
    /\ (aos_Type (param_Value q) = ParamTypeString -> alternate_slot_zero (param_Value q))
    /\ (sp_Values param <> [] ->
        aos_Type (param_Value q) = ParamTypeArray
        /\ (alternate_slot_zero (param_Value q) <-> sp_Value param = "")).
Proof.
  intros Hi.
  destruct (assembled_params_lookup _ ParamTypeString i param Hi)
    as (q & Hq & Hname & Hstr & Harr & Htype).
  exists q. rewrite WithReleaseStrategy_Params.
  rewrite lookup_app_r by lia.
  replace (length (spec_Params (Spec r)) + i - length (spec_Params (Spec r)))%nat
    with i by lia.
  split; [exact Hq|]. split; [exact Hname|]. split; [exact Hstr|]. split; [exact Harr|].
  split.
  - intros Hscalar. unfold alternate_slot_zero. rewrite Hscalar, Harr.
    destruct (sp_Values param) as [|v vs] eqn:Hvals; [reflexivity|].
    assert (Harray : aos_Type (param_Value q) = ParamTypeArray) by (apply Htype; discriminate).
    congruence.
  - intros Hne. split; [exact (Htype Hne)|].
    unfold alternate_slot_zero. rewrite (Htype Hne), Hstr. tauto.
Qed.

Lemma WithReleaseStrategy_slots_witness :
  exists q,
    spec_Params
      (Spec (WithReleaseStrategy ∅ (NewReleasePipelineRun "release" "dev")
                                 strategy_list_then_scalar)) !! 0%nat = Some q
    /\ aos_Type (param_Value q) = ParamTypeArray
    /\ alternate_slot_zero (param_Value q).
Proof.
  destruct (WithReleaseStrategy_slots ∅ (NewReleasePipelineRun "release" "dev")
              strategy_list_then_scalar 0
              {| sp_Name := "targets"; sp_Value := ""; sp_Values := ["a"; "b"] |}
              eq_refl)
    as (q & Hq & _ & _ & _ & _ & Hlist).
  exists q. split; [exact Hq|].
  destruct (Hlist ltac:(discriminate)) as [Htype Hzero].
  split; [exact Htype | apply Hzero; reflexivity].
Defined.

(** ** Release and application metadata *)

Lemma filterByPrefix_lookup_Some (entries : gmap string string) (prefix k v : string) :
  filterByPrefix entries prefix !! k = Some v
  <-> entries !! k = Some v /\ HasPrefix k prefix = true.
Proof.
  unfold filterByPrefix.
  rewrite (map_lookup_filter_Some (fun kv : string * string => HasPrefix kv.1 prefix = true)
             entries k v).
  reflexivity.
Qed.

Lemma filterByPrefix_lookup_other (entries : gmap string string) (prefix k : string) :
  HasPrefix k prefix = false -> filterByPrefix entries prefix !! k = None.
Proof.
  intros Hk. destruct (filterByPrefix entries prefix !! k) as [v|] eqn:Hv; [|reflexivity].
  apply filterByPrefix_lookup_Some in Hv. destruct Hv as [_ Hv]. congruence.
Qed.

Lemma union_absorb (m1 m2 : gmap string string) : m1 ∪ (m1 ∪ m2) = m1 ∪ m2.
Proof. rewrite (assoc_L (∪)), (idemp_L (∪) m1). reflexivity. Qed.

Lemma WithReleaseAndApplicationMetadata_Labels (names : MetadataNames)
    (r : ReleasePipelineRun) (release : Release) (applicationName : string) :
  om_Labels (ObjectMeta_ (WithReleaseAndApplicationMetadata names r release applicationName))
  = GetLabelsWithPrefix release (PipelinesAsCodePrefix names)
    ∪ fixed_labels names release applicationName.
Proof. reflexivity. Qed.

Lemma WithReleaseAndApplicationMetadata_idem (names : MetadataNames)
    (r : ReleasePipelineRun) (release : Release) (applicationName : string) :
  WithReleaseAndApplicationMetadata names
    (WithReleaseAndApplicationMetadata names r release applicationName) release applicationName
  = WithReleaseAndApplicationMetadata names r release applicationName.
Proof.
  unfold WithReleaseAndApplicationMetadata, AddLabels, AddAnnotations,
    set_Labels, set_Annotations. simpl.
  rewrite union_absorb. reflexivity.
Qed.

Lemma fixed_labels_lookup (names : MetadataNames) (release : Release) (applicationName : string) :
  NoDup (fixed_label_keys names) ->
  fixed_labels names release applicationName !! PipelinesTypeLabel names = Some "release"
  /\ fixed_labels names release applicationName !! ReleaseNameLabel names
     = Some (release_Name release)
  /\ fixed_labels names release applicationName !! ReleaseNamespaceLabel names
     = Some (release_Namespace release)
  /\ fixed_labels names release applicationName !! ApplicationNameLabel names
     = Some applicationName.
Proof.
  unfold fixed_label_keys, fixed_labels. intros Hnodup.
  apply NoDup_cons in Hnodup as [H1 Hnodup].
  apply NoDup_cons in Hnodup as [H2 Hnodup].
  apply NoDup_cons in Hnodup as [H3 _].
  assert (H12 : PipelinesTypeLabel names <> ReleaseNameLabel names)
    by (intros He; apply H1; rewrite He; apply list_elem_of_In; simpl; tauto).
  assert (H13 : PipelinesTypeLabel names <> ReleaseNamespaceLabel names)
    by (intros He; apply H1; rewrite He; apply list_elem_of_In; simpl; tauto).
  assert (H14 : PipelinesTypeLabel names <> ApplicationNameLabel names)
    by (intros He; apply H1; rewrite He; apply list_elem_of_In; simpl; tauto).
  assert (H23 : ReleaseNameLabel names <> ReleaseNamespaceLabel names)
    by (intros He; apply H2; rewrite He; apply list_elem_of_In; simpl; tauto).
  assert (H24 : ReleaseNameLabel names <> ApplicationNameLabel names)
    by (intros He; apply H2; rewrite He; apply list_elem_of_In; simpl; tauto).
  assert (H34 : ReleaseNamespaceLabel names <> ApplicationNameLabel names)
    by (intros He; apply H3; rewrite He; apply list_elem_of_In; simpl; tauto).
  repeat split.
  - rewrite !lookup_insert_ne by congruence. apply lookup_insert_eq.
  - rewrite !lookup_insert_ne by congruence. apply lookup_insert_eq.
  - rewrite lookup_insert_ne by congruence. apply lookup_insert_eq.
  - apply lookup_insert_eq.
Qed.

(** C8: WithReleaseAndApplicationMetadata applied twice with the same
    arguments gives the result of applying it once; when the four label keys
    are distinct and none of them carries the copied prefix, the label
    mapping holds run-type "release", the release name, the release
    namespace and the application name under them, after one application as
    after two.  The entries of the release whose key carries the prefix are
    copied after the four are set, so each of them is present with its own
    value. *)
Theorem WithReleaseAndApplicationMetadata_idempotent (names : MetadataNames)
    (r : ReleasePipelineRun) (release : Release) (applicationName : string) :
  NoDup (fixed_label_keys names) ->
  Forall (fun k => HasPrefix k (PipelinesAsCodePrefix names) = false) (fixed_label_keys names) ->
  let once := WithReleaseAndApplicationMetadata names r release applicationName in
  let twice := WithReleaseAndApplicationMetadata names once release applicationName in
  twice = once
  /\ (forall run, run = once \/ run = twice ->
        om_Labels (ObjectMeta_ run) !! PipelinesTypeLabel names = Some "release"
        /\ om_Labels (ObjectMeta_ run) !! ReleaseNameLabel names = Some (release_Name release)
        /\ om_Labels (ObjectMeta_ run) !! ReleaseNamespaceLabel names
           = Some (release_Namespace release)
        /\ om_Labels (ObjectMeta_ run) !! ApplicationNameLabel names = Some applicationName)
  /\ (forall k v, release_Labels release !! k = Some v ->
        HasPrefix k (PipelinesAsCodePrefix names) = true ->
        om_Labels (ObjectMeta_ once) !! k = Some v)
  /\ (forall k v, release_Annotations release !! k = Some v ->
        HasPrefix k (PipelinesAsCodePrefix names) = true ->
        om_Annotations (ObjectMeta_ once) !! k = Some v).
Proof.
  intros Hnodup Hkeys once twice.
  assert (Hidem : twice = once) by apply WithReleaseAndApplicationMetadata_idem.
  split; [exact Hidem|]. split; [|split].
  - intros run Hrun.
    assert (Hrun' : run = once) by (destruct Hrun; congruence). subst run.
    unfold once. rewrite WithReleaseAndApplicationMetadata_Labels.
    unfold fixed_label_keys in Hkeys.
    apply Forall_cons in Hkeys as [Hk1 Hkeys].
    apply Forall_cons in Hkeys as [Hk2 Hkeys].
    apply Forall_cons in Hkeys as [Hk3 Hkeys].
    apply Forall_cons in Hkeys as [Hk4 _].
    unfold GetLabelsWithPrefix.
    rewrite !lookup_union_r by (apply filterByPrefix_lookup_other; assumption).
    apply fixed_labels_lookup. exact Hnodup.
  - intros k v Hk Hprefix. unfold once.
    rewrite WithReleaseAndApplicationMetadata_Labels.
    apply lookup_union_Some_l. apply filterByPrefix_lookup_Some. split; assumption.
  - intros k v Hk Hprefix. unfold once, WithReleaseAndApplicationMetadata. simpl.
    apply lookup_union_Some_l. apply filterByPrefix_lookup_Some. split; assumption.
Qed.

Lemma sample_names_NoDup : NoDup (fixed_label_keys sample_names).
Proof.
  unfold fixed_label_keys, sample_names. simpl.
  repeat (apply NoDup_cons; split;
          [rewrite list_elem_of_In; simpl; intuition discriminate|]).
  apply NoDup_nil. exact I.
Qed.

Lemma sample_names_no_prefix :
  Forall (fun k => HasPrefix k (PipelinesAsCodePrefix sample_names) = false)
         (fixed_label_keys sample_names).
Proof. repeat constructor. Qed.

Lemma WithReleaseAndApplicationMetadata_idempotent_witness :
  let once := WithReleaseAndApplicationMetadata sample_names
                (NewReleasePipelineRun "release" "dev") sample_release "app" in
  WithReleaseAndApplicationMetadata sample_names once sample_release "app" = once
  /\ om_Labels (ObjectMeta_ once) !! "pipelines.appstudio.openshift.io/type" = Some "release"
  /\ om_Labels (ObjectMeta_ once) !! "pac.test.appstudio.openshift.io/sha" = Some "abc".
Proof.
  intros once.
  destruct (WithReleaseAndApplicationMetadata_idempotent sample_names
              (NewReleasePipelineRun "release" "dev") sample_release "app"
              sample_names_NoDup sample_names_no_prefix)
    as (Hidem & Hfixed & Hlabels & _).
  split; [exact Hidem|]. split.
  - exact (proj1 (Hfixed once (or_introl eq_refl))).
  - apply Hlabels; reflexivity.
Defined.

(** ** Owner *)

Lemma AddFinalizer_elem (r : ReleasePipelineRun) (finalizer : string) :
  finalizer ∈ om_Finalizers (ObjectMeta_ (AddFinalizer r finalizer)).
Proof.
  unfold AddFinalizer. destruct (bool_decide_reflect (finalizer ∈ om_Finalizers (ObjectMeta_ r))).
  - assumption.
  - simpl. apply elem_of_app. right. apply list_elem_of_singleton. reflexivity.
Qed.

Lemma AddFinalizer_Annotations (r : ReleasePipelineRun) (finalizer : string) :
  om_Annotations (ObjectMeta_ (AddFinalizer r finalizer)) = om_Annotations (ObjectMeta_ r).
Proof. unfold AddFinalizer. destruct (bool_decide _); reflexivity. Qed.

(** C10: WithOwner adds the release finalizer for every release and every
    outcome of SetOwnerAnnotations, whose error it drops.  When
    SetOwnerAnnotations fails, leaving the PipelineRun as it was, the result
    is the PipelineRun with the finalizer added and its annotations
    untouched: it carries the finalizer and no owner annotation that was not
    there before. *)
Theorem WithOwner_finalizer_unconditional (names : MetadataNames)
    (SetOwnerAnnotations : Release -> ReleasePipelineRun -> ReleasePipelineRun * option error)
    (r : ReleasePipelineRun) (release : Release) :
  ReleaseFinalizer names
    ∈ om_Finalizers (ObjectMeta_ (WithOwner names SetOwnerAnnotations r release))
  /\ (forall err, SetOwnerAnnotations release r = (r, Some err) ->
        WithOwner names SetOwnerAnnotations r release = AddFinalizer r (ReleaseFinalizer names)
        /\ om_Annotations (ObjectMeta_ (WithOwner names SetOwnerAnnotations r release))
           = om_Annotations (ObjectMeta_ r)).
Proof.
  unfold WithOwner. split.
  - destruct (SetOwnerAnnotations release r) as [r1 e]. apply AddFinalizer_elem.
  - intros err Hfail. rewrite Hfail. split; [reflexivity | apply AddFinalizer_Annotations].
Qed.

Lemma WithOwner_finalizer_unconditional_witness :
  let run := WithOwner sample_names handler_SetOwnerAnnotations
               (NewReleasePipelineRun "release" "dev") nameless_release in
  om_Finalizers (ObjectMeta_ run) = ["appstudio.redhat.com/release-finalizer"]
  /\ om_Annotations (ObjectMeta_ run) = ∅.
Proof.
  intros run.
  destruct (proj2 (WithOwner_finalizer_unconditional sample_names handler_SetOwnerAnnotations
                     (NewReleasePipelineRun "release" "dev") nameless_release)
                  "owner does not have a name, cannot call SetOwnerAnnotations" eq_refl)
    as [Hrun Hann].
  split; [|exact Hann].
  unfold run. rewrite Hrun. reflexivity.
Defined.

(** With a named release of a known kind the owner annotations are written
    and the finalizer is added. *)
Example WithOwner_named_release :
  let run := WithOwner sample_names handler_SetOwnerAnnotations
               (NewReleasePipelineRun "release" "dev") sample_release in
  om_Annotations (ObjectMeta_ run) !! NamespacedNameAnnotation = Some "dev/rel-1"
  /\ om_Annotations (ObjectMeta_ run) !! TypeAnnotation = Some "Release.appstudio.redhat.com"
  /\ om_Finalizers (ObjectMeta_ run) = ["appstudio.redhat.com/release-finalizer"].
Proof. repeat split. Qed.

(** ** Runes: bit operations as arithmetic *)

Local Open Scope Z_scope.

Ltac zarith := Z.div_mod_to_equations; lia.

(** A multiple of [2^k] and a number below [2^k] share no bit, so their
    bitwise or is their sum. *)
Lemma land_disjoint (a b k : Z) :
  0 <= k -> 0 <= b < 2 ^ k -> a mod 2 ^ k = 0 -> Z.land a b = 0.
Proof.
  intros Hk Hb Ha. apply Z.bits_inj'. intros n Hn.
  rewrite Z.land_spec, Z.bits_0.
  destruct (Z.lt_ge_cases n k) as [Hlt|Hge].
  - rewrite <- (Z.mod_pow2_bits_low a k n) by lia. rewrite Ha, Z.bits_0. reflexivity.
  - rewrite <- (Z.mod_small b (2 ^ k)) by lia.
    rewrite Z.mod_pow2_bits_high by lia. apply andb_false_r.
Qed.

Lemma lor_disjoint (a b k : Z) :
  0 <= k -> 0 <= b < 2 ^ k -> a mod 2 ^ k = 0 -> Z.lor a b = a + b.
Proof.
  intros Hk Hb Ha. pose proof (Z.add_lor_land a b) as H.
  rewrite (land_disjoint a b k) in H by assumption. lia.
Qed.

(** Masking with [2^n - 1] is the remainder modulo [2^n]. *)
Lemma land_maskx (x : Z) : Z.land x maskx = x mod 64.
Proof. change maskx with (Z.ones 6). rewrite Z.land_ones by lia. reflexivity. Qed.
Lemma land_mask2 (x : Z) : Z.land x mask2 = x mod 32.
Proof. change mask2 with (Z.ones 5). rewrite Z.land_ones by lia. reflexivity. Qed.
Lemma land_mask3 (x : Z) : Z.land x mask3 = x mod 16.
Proof. change mask3 with (Z.ones 4). rewrite Z.land_ones by lia. reflexivity. Qed.
Lemma land_mask4 (x : Z) : Z.land x mask4 = x mod 8.
Proof. change mask4 with (Z.ones 3). rewrite Z.land_ones by lia. reflexivity. Qed.

(** Or-ing a marker prefix onto payload bits adds the prefix. *)
Lemma lor_tx (y : Z) : 0 <= y < 64 -> Z.lor tx y = 128 + y.
Proof. intros. apply (lor_disjoint tx y 6); [lia | lia | reflexivity]. Qed.
Lemma lor_t2 (y : Z) : 0 <= y < 32 -> Z.lor t2 y = 192 + y.
Proof. intros. apply (lor_disjoint t2 y 5); [lia | lia | reflexivity]. Qed.
Lemma lor_t3 (y : Z) : 0 <= y < 16 -> Z.lor t3 y = 224 + y.
Proof. intros. apply (lor_disjoint t3 y 4); [lia | lia | reflexivity]. Qed.
Lemma lor_t4 (y : Z) : 0 <= y < 8 -> Z.lor t4 y = 240 + y.
Proof. intros. apply (lor_disjoint t4 y 3); [lia | lia | reflexivity]. Qed.

(** The bytes encoderune writes, by length class. *)
Lemma encoderune_1 r : 0 <= r <= 0x7F -> encoderune r = [r].
Proof.
  intros H. unfold encoderune, rune1Max, to_byte.
  rewrite (Z.mod_small r (2^32)) by lia.
  destruct (Z.leb_spec r 127); [|lia]. rewrite Z.mod_small by lia. reflexivity.
Qed.

Lemma encoderune_2 r : 0x7F < r <= 0x7FF ->
  encoderune r = [192 + r / 64; 128 + r mod 64].
Proof.
  intros H. unfold encoderune, rune1Max, rune2Max, to_byte.
  rewrite (Z.mod_small r (2^32)) by lia.
  destruct (Z.leb_spec r 127); [lia|].
  destruct (Z.leb_spec r 2047); [|lia].
  rewrite land_maskx, Z.shiftr_div_pow2 by lia. change (2 ^ 6) with 64.
  rewrite lor_t2, lor_tx by (Z.div_mod_to_equations; lia).
  f_equal; [|f_equal]; Z.div_mod_to_equations; lia.
Qed.

(** ** Runes: encoderune *)


(** encoderune only looks at the low 32 bits of its argument. *)
Lemma to_byte_wrap (r k : Z) : 0 <= k <= 24 ->
  to_byte (Z.shiftr (r mod 2 ^ 32) k) = to_byte (Z.shiftr r k).
Proof.
  intros Hk. unfold to_byte. rewrite !Z.shiftr_div_pow2 by lia.
  change 256 with (2 ^ 8).
  apply Z.bits_inj'. intros n Hn.
  destruct (Z.lt_ge_cases n 8).
  - rewrite !Z.mod_pow2_bits_low by lia.
    rewrite <- !Z.shiftr_div_pow2 by lia. rewrite !Z.shiftr_spec by lia.
    rewrite Z.mod_pow2_bits_low by lia. reflexivity.
  - rewrite !Z.mod_pow2_bits_high by lia. reflexivity.
Qed.

Lemma to_byte_wrap0 (r : Z) : to_byte (r mod 2 ^ 32) = to_byte r.
Proof.
  rewrite <- (Z.shiftr_0_r (r mod 2 ^ 32)), <- (Z.shiftr_0_r r).
  apply to_byte_wrap. lia.
Qed.

Lemma encoderune_wrap (r : Z) : encoderune (r mod 2 ^ 32) = encoderune r.
Proof.
  unfold encoderune, encode3. rewrite Z.mod_mod by lia.
  rewrite !to_byte_wrap by lia. rewrite !to_byte_wrap0. reflexivity.
Qed.

Lemma encode3_arith (r : Z) : 0x7FF < r <= 0xFFFF ->
  encode3 r = [224 + r / 4096; 128 + (r / 64) mod 64; 128 + r mod 64].
Proof.
  intros H. unfold encode3, to_byte.
  rewrite !land_maskx, !Z.shiftr_div_pow2 by lia.
  change (2 ^ 12) with 4096. change (2 ^ 6) with 64.
  rewrite lor_t3, !lor_tx by zarith.
  f_equal; [|f_equal; [|f_equal]]; zarith.
Qed.

Lemma encoderune_3 (r : Z) : 0x7FF < r <= 0xFFFF -> ~ (0xD800 <= r <= 0xDFFF) ->
  encoderune r = [224 + r / 4096; 128 + (r / 64) mod 64; 128 + r mod 64].
Proof.
  intros H Hs. unfold encoderune, rune1Max, rune2Max, rune3Max, maxRune, surrogateMin, surrogateMax.
  rewrite (Z.mod_small r (2 ^ 32)) by lia.
  destruct (Z.leb_spec r 127); [lia|].
  destruct (Z.leb_spec r 2047); [lia|].
  destruct (Z.ltb_spec 1114111 r); [lia|].
  destruct (Z.leb_spec 55296 r), (Z.leb_spec r 57343); simpl; try lia;
    (destruct (Z.leb_spec r 65535); [|lia]); apply encode3_arith; lia.
Qed.

Lemma encoderune_4 (r : Z) : 0xFFFF < r <= 0x10FFFF ->
  encoderune r
  = [240 + r / 262144; 128 + (r / 4096) mod 64; 128 + (r / 64) mod 64; 128 + r mod 64].
Proof.
  intros H. unfold encoderune, rune1Max, rune2Max, rune3Max, maxRune, surrogateMin, surrogateMax.
  rewrite (Z.mod_small r (2 ^ 32)) by lia.
  destruct (Z.leb_spec r 127); [lia|].
  destruct (Z.leb_spec r 2047); [lia|].
  destruct (Z.ltb_spec 1114111 r); [lia|].
  destruct (Z.leb_spec 55296 r), (Z.leb_spec r 57343); simpl; try lia;
    (destruct (Z.leb_spec r 65535); [lia|]);
    unfold to_byte;
    rewrite !land_maskx, !Z.shiftr_div_pow2 by lia;
    change (2 ^ 18) with 262144; change (2 ^ 12) with 4096; change (2 ^ 6) with 64;
    rewrite lor_t4, !lor_tx by zarith;
    (f_equal; [|f_equal; [|f_equal; [|f_equal]]]); zarith.
Qed.

(** A surrogate or a value above maxRune is written as runeError. *)
Lemma encoderune_invalid (r : Z) : 0 <= r < 2 ^ 32 ->
  valid_runeb r = false -> encoderune r = [239; 191; 189].
Proof.
  intros Hr Hinv. unfold encoderune, rune1Max, rune2Max, rune3Max, maxRune, surrogateMin, surrogateMax.
  unfold valid_runeb, maxRune, surrogateMin, surrogateMax in Hinv.
  rewrite (Z.mod_small r (2 ^ 32)) by lia.
  destruct (Z.leb_spec 0 r); [|lia].
  destruct (Z.leb_spec r 1114111), (Z.leb_spec 55296 r), (Z.leb_spec r 57343);
    simpl in Hinv; try discriminate;
    (destruct (Z.leb_spec r 127); [lia|]);
    (destruct (Z.leb_spec r 2047); [lia|]);
    (destruct (Z.ltb_spec 1114111 r); try lia); reflexivity.
Qed.

(** ** Runes: decoderune after encoderune *)

(** The rune decoderune assembles from two, three and four bytes. *)
Lemma decode2_arith (s0 s1 : Z) :
  Z.lor (Z.shiftl (Z.land s0 mask2) 6) (Z.land s1 maskx) = (s0 mod 32) * 64 + s1 mod 64.
Proof.
  rewrite land_mask2, land_maskx, Z.shiftl_mul_pow2 by lia. change (2 ^ 6) with 64.
  apply (lor_disjoint _ _ 6); [lia | zarith | zarith].
Qed.

Lemma decode3_arith (s0 s1 s2 : Z) :
  Z.lor (Z.lor (Z.shiftl (Z.land s0 mask3) 12) (Z.shiftl (Z.land s1 maskx) 6))
        (Z.land s2 maskx)
  = (s0 mod 16) * 4096 + (s1 mod 64) * 64 + s2 mod 64.
Proof.
  rewrite land_mask3, !land_maskx, !Z.shiftl_mul_pow2 by lia.
  change (2 ^ 6) with 64. change (2 ^ 12) with 4096.
  rewrite (lor_disjoint (s0 mod 16 * 4096) (s1 mod 64 * 64) 12) by zarith.
  apply (lor_disjoint _ _ 6); [lia | zarith | zarith].
Qed.

Lemma decode4_arith (s0 s1 s2 s3 : Z) :
  Z.lor (Z.lor (Z.lor (Z.shiftl (Z.land s0 mask4) 18) (Z.shiftl (Z.land s1 maskx) 12))
               (Z.shiftl (Z.land s2 maskx) 6))
        (Z.land s3 maskx)
  = (s0 mod 8) * 262144 + (s1 mod 64) * 4096 + (s2 mod 64) * 64 + s3 mod 64.
Proof.
  rewrite land_mask4, !land_maskx, !Z.shiftl_mul_pow2 by lia.
  change (2 ^ 6) with 64. change (2 ^ 12) with 4096. change (2 ^ 18) with 262144.
  rewrite (lor_disjoint (s0 mod 8 * 262144) (s1 mod 64 * 4096) 18) by zarith.
  rewrite (lor_disjoint _ (s2 mod 64 * 64) 12) by zarith.
  apply (lor_disjoint _ _ 6); [lia | zarith | zarith].
Qed.

(** Decide the comparisons in the goal by arithmetic. *)
Ltac zbool :=
  repeat match goal with
    | |- context [?a <=? ?b] =>
        first [ rewrite (proj2 (Z.leb_le a b)) by zarith
              | rewrite (proj2 (Z.leb_gt a b)) by zarith ]
    | |- context [?a <? ?b] =>
        first [ rewrite (proj2 (Z.ltb_lt a b)) by zarith
              | rewrite (proj2 (Z.ltb_ge a b)) by zarith ]
    end.

(** Decoding the bytes of a valid rune gives the rune back and consumes
    exactly those bytes. *)
Lemma range_step_encoderune (r : Z) (rest : list Z) :
  valid_rune r ->
  range_step (encoderune r ++ rest) = (r, length (encoderune r)).
Proof.
  unfold valid_rune, maxRune, surrogateMin, surrogateMax. intros [Hr Hs].
  destruct (Z.le_gt_cases r 0x7F) as [H1|H1].
  { rewrite encoderune_1 by lia. simpl. unfold runeSelf. zbool. reflexivity. }
  destruct (Z.le_gt_cases r 0x7FF) as [H2|H2].
  { rewrite encoderune_2 by lia. simpl. unfold runeSelf, is_cont, t2, t3, locb, hicb, rune1Max.
    rewrite decode2_arith. zbool. simpl. zbool. f_equal. zarith. }
  destruct (Z.le_gt_cases r 0xFFFF) as [H3|H3].
  { rewrite encoderune_3 by lia. simpl.
    unfold runeSelf, is_cont, t2, t3, t4, locb, hicb, rune2Max, surrogateMin, surrogateMax.
    rewrite decode3_arith.
    replace ((224 + r / 4096) mod 16 * 4096 + (128 + (r / 64) mod 64) mod 64 * 64
             + (128 + r mod 64) mod 64) with r by zarith.
    zbool. simpl. zbool. simpl.
    destruct (Z.leb_spec 55296 r), (Z.leb_spec r 57343); simpl; try reflexivity; lia. }
  rewrite encoderune_4 by lia. simpl.
  unfold runeSelf, is_cont, t2, t3, t4, t5, locb, hicb, rune3Max, maxRune.
  rewrite decode4_arith.
  replace ((240 + r / 262144) mod 8 * 262144 + (128 + (r / 4096) mod 64) mod 64 * 4096
           + (128 + (r / 64) mod 64) mod 64 * 64 + (128 + r mod 64) mod 64) with r by zarith.
  zbool. simpl. zbool. simpl. reflexivity.
Qed.

(** ** Runes: the range loop *)

Lemma valid_runeError : valid_rune runeError.
Proof. unfold valid_rune, runeError, maxRune, surrogateMin, surrogateMax. lia. Qed.

(** Turn boolean tests in the hypotheses into propositions. *)
Ltac bool_hyps :=
  repeat match goal with
    | H : (_ && _) = true |- _ => apply andb_prop in H as [? ?]
    | H : negb _ = true |- _ => apply negb_true_iff in H
    | H : (_ && _) = false |- _ => apply andb_false_iff in H as [?|?]
    | H : (_ <? _) = true |- _ => apply Z.ltb_lt in H
    | H : (_ <=? _) = true |- _ => apply Z.leb_le in H
    | H : (_ <=? _) = false |- _ => apply Z.leb_gt in H
    | H : (_ <? _) = false |- _ => apply Z.ltb_ge in H
    end.

(** Whatever the bytes, decoderune yields a valid rune and a width between
    one and four. *)
Lemma decoderune_valid (s : list Z) : valid_rune (fst (decoderune s)).
Proof.
  unfold decoderune. cbv zeta.
  repeat match goal with
    | |- context [match ?l with [] => _ | _ :: _ => _ end] => destruct l
    | |- context [if ?b then _ else _] => destruct b eqn:?
    end; simpl; try apply valid_runeError;
    rewrite ?decode2_arith, ?decode3_arith, ?decode4_arith in *;
    unfold valid_rune, rune1Max, rune2Max, rune3Max, maxRune, surrogateMin, surrogateMax in *;
    bool_hyps; zarith.
Qed.

Lemma decoderune_width (s : list Z) : (1 <= snd (decoderune s) <= 4)%nat.
Proof.
  unfold decoderune. cbv zeta.
  repeat match goal with
    | |- context [match ?l with [] => _ | _ :: _ => _ end] => destruct l
    | |- context [if ?b then _ else _] => destruct b
    end; simpl; lia.
Qed.

Lemma range_step_valid (b : Z) (s : list Z) :
  0 <= b -> valid_rune (fst (range_step (b :: s))).
Proof.
  intros Hb. unfold range_step.
  destruct (Z.ltb_spec b runeSelf) as [Hlt|Hge]; [|apply decoderune_valid].
  simpl. unfold valid_rune, runeSelf, maxRune, surrogateMin, surrogateMax in *. lia.
Qed.

Lemma range_step_width (s : list Z) : (1 <= snd (range_step s) <= 4)%nat.
Proof.
  unfold range_step. destruct s as [|b s]; [simpl; lia|].
  destruct (b <? runeSelf); [simpl; lia | apply decoderune_width].
Qed.

(** The range loop needs no more iterations than there are bytes. *)
Lemma range_runes_fuel (n : nat) :
  forall (m : nat) (s : list Z),
    (length s <= n)%nat -> (length s <= m)%nat -> range_runes n s = range_runes m s.
Proof.
  induction n as [|n IH]; intros m s Hn Hm.
  - destruct s; [|simpl in Hn; lia]. destruct m; reflexivity.
  - destruct m as [|m].
    + destruct s; [reflexivity | simpl in Hm; lia].
    + simpl. destruct s as [|b s]; [reflexivity|].
      destruct (range_step (b :: s)) as [r w] eqn:Hstep.
      pose proof (range_step_width (b :: s)) as Hw. rewrite Hstep in Hw. simpl in Hw.
      f_equal. apply IH; rewrite length_drop; simpl in *; lia.
Qed.

(** Every rune of [[]rune(s)] is valid. *)
Lemma range_runes_valid (n : nat) :
  forall s : list Z, Forall (fun b => 0 <= b) s -> Forall valid_rune (range_runes n s).
Proof.
  induction n as [|n IH]; intros s Hs; simpl; [constructor|].
  destruct s as [|b s]; [constructor|].
  destruct (range_step (b :: s)) as [r w] eqn:Hstep.
  constructor.
  - pose proof (range_step_valid b s) as Hv. rewrite Hstep in Hv. apply Hv.
    apply Forall_inv in Hs. exact Hs.
  - apply IH. apply Forall_drop. exact Hs.
Qed.

Lemma encoderune_length (r : Z) : (1 <= length (encoderune r))%nat.
Proof.
  unfold encoderune, encode3.
  repeat match goal with |- context [if ?b then _ else _] => destruct b end; simpl; lia.
Qed.

(** Ranging over the encoding of valid runes gives the runes back. *)
Lemma range_runes_encode (rs : list Z) :
  Forall valid_rune rs ->
  forall n, (length (concat (map encoderune rs)) <= n)%nat ->
    range_runes n (concat (map encoderune rs)) = rs.
Proof.
  induction 1 as [|r rs Hr _ IH]; intros n Hn; simpl in *.
  - destruct n; reflexivity.
  - pose proof (encoderune_length r) as Hlen.
    rewrite length_app in Hn.
    destruct n as [|n]; [lia|]. simpl.
    destruct (encoderune r ++ concat (map encoderune rs)) as [|b s] eqn:Hbytes.
    { apply (f_equal length) in Hbytes. rewrite length_app in Hbytes. simpl in Hbytes. lia. }
    rewrite <- Hbytes, range_step_encoderune by exact Hr.
    rewrite drop_app_length. f_equal. apply IH. lia.
Qed.

(** ** Strings and rune slices *)

(** Bytes and characters. *)
Lemma byte_val_range (c : ascii) : 0 <= byte_val c < 256.
Proof.
  unfold byte_val. pose proof (N_ascii_bounded c) as H. lia.
Qed.

Lemma byte_val_chr (b : Z) : byte_val (byte_chr b) = to_byte b.
Proof.
  unfold byte_val, byte_chr, to_byte.
  assert (Hb : 0 <= b mod 256 < 256) by (apply Z.mod_pos_bound; lia).
  rewrite N_ascii_embedding by lia. lia.
Qed.

Lemma bytes_of_string_of_bytes (l : list Z) :
  Forall (fun b => 0 <= b < 256) l -> bytes_of_string (string_of_bytes l) = l.
Proof.
  unfold bytes_of_string, string_of_bytes. rewrite list_ascii_of_string_of_list_ascii.
  induction 1 as [|b l Hb _ IH]; simpl; [reflexivity|].
  rewrite byte_val_chr, IH. unfold to_byte. rewrite Z.mod_small by lia. reflexivity.
Qed.

Lemma bytes_of_string_nonneg (s : string) : Forall (fun b => 0 <= b) (bytes_of_string s).
Proof.
  unfold bytes_of_string. apply Forall_map, Forall_forall. intros c _.
  pose proof (byte_val_range c). simpl. lia.
Qed.

(** [written_rune] is what [string(...)] makes of a rune. *)
Lemma written_rune_valid (r : Z) : valid_rune (written_rune r).
Proof.
  unfold written_rune. destruct (valid_runeb (r mod 2 ^ 32)) eqn:Hv; [|apply valid_runeError].
  unfold valid_runeb in Hv. unfold valid_rune.
  bool_hyps; lia.
Qed.

Lemma written_rune_id (r : Z) : valid_rune r -> written_rune r = r.
Proof.
  unfold valid_rune, written_rune, valid_runeb, maxRune, surrogateMin, surrogateMax.
  intros [Hr Hs]. rewrite (Z.mod_small r (2 ^ 32)) by lia.
  destruct (Z.leb_spec 0 r); [|lia]. destruct (Z.leb_spec r 1114111); [|lia].
  destruct (Z.leb_spec 55296 r), (Z.leb_spec r 57343); simpl; try reflexivity; lia.
Qed.

Lemma encoderune_written (r : Z) : encoderune (written_rune r) = encoderune r.
Proof.
  unfold written_rune.
  destruct (valid_runeb (r mod 2 ^ 32)) eqn:Hv; [apply encoderune_wrap|].
  rewrite <- (encoderune_wrap r).
  rewrite (encoderune_invalid (r mod 2 ^ 32)); [reflexivity | | exact Hv].
  apply Z.mod_pos_bound. lia.
Qed.

Lemma encoderune_bytes (r : Z) : Forall (fun b => 0 <= b < 256) (encoderune r).
Proof.
  rewrite <- encoderune_written.
  pose proof (written_rune_valid r) as Hv. revert Hv. generalize (written_rune r). clear r.
  intros r. unfold valid_rune, maxRune, surrogateMin, surrogateMax. intros [Hr Hs].
  destruct (Z.le_gt_cases r 0x7F); [rewrite encoderune_1 by lia|].
  { repeat constructor; lia. }
  destruct (Z.le_gt_cases r 0x7FF); [rewrite encoderune_2 by lia|].
  { repeat constructor; zarith. }
  destruct (Z.le_gt_cases r 0xFFFF); [rewrite encoderune_3 by lia|rewrite encoderune_4 by lia].
  { repeat constructor; zarith. }
  repeat constructor; zarith.
Qed.

(** [[]rune(string(rs))] is [rs] with every invalid rune replaced by
    runeError. *)
Lemma stringtoslicerune_slicerunetostring (rs : list Z) :
  stringtoslicerune (slicerunetostring rs) = map written_rune rs.
Proof.
  unfold stringtoslicerune, slicerunetostring.
  rewrite bytes_of_string_of_bytes.
  2: { apply Forall_concat, Forall_map, Forall_forall. intros r _. apply encoderune_bytes. }
  replace (map encoderune rs) with (map encoderune (map written_rune rs)).
  2: { rewrite map_map. apply map_ext. intros r. apply encoderune_written. }
  apply range_runes_encode; [|lia].
  apply Forall_map, Forall_forall. intros r _. apply written_rune_valid.
Qed.

Lemma stringtoslicerune_valid (s : string) : Forall valid_rune (stringtoslicerune s).
Proof. apply range_runes_valid, bytes_of_string_nonneg. Qed.

(** One unfolding of the range loop. *)
Lemma range_runes_cons (n : nat) (b : Z) (s : list Z) :
  range_runes (S n) (b :: s)
  = fst (range_step (b :: s)) :: range_runes n (drop (snd (range_step (b :: s))) (b :: s)).
Proof. cbn [range_runes]. destruct (range_step (b :: s)). reflexivity. Qed.

(** Only the empty string has no runes. *)
Lemma stringtoslicerune_nil (s : string) : stringtoslicerune s = [] <-> s = EmptyString.
Proof.
  unfold stringtoslicerune, bytes_of_string. split.
  - destruct s as [|c s]; [reflexivity|].
    cbn [list_ascii_of_string map length]. rewrite range_runes_cons.
    intros Hnil. discriminate Hnil.
  - intros ->. reflexivity.
Qed.

(** ** Enterprise contract policy *)


Lemma valid_rune_ascii (r : rune) : 0 <= r <= MaxASCII -> valid_rune r.
Proof. unfold valid_rune, MaxASCII, maxRune, surrogateMin, surrogateMax. lia. Qed.

(** C2: WithEnterpriseContractPolicy is not defined for every input.  For a
    policy whose Kind is the empty string the rune slice is empty, indexing
    it at 0 panics, and the call does not return. *)
Theorem WithEnterpriseContractPolicy_empty_kind_panics {PolicySpec : Type}
    (json_Marshal : PolicySpec -> string * option error) (case_table_lower : rune -> rune)
    (r : ReleasePipelineRun) (spec : PolicySpec) :
  WithEnterpriseContractPolicy json_Marshal case_table_lower r
    {| ecp_Kind := ""; ecp_Spec := spec |}
  = Panics "runtime error: index out of range [0] with length 0".
Proof.
  unfold WithEnterpriseContractPolicy. simpl.
  destruct (json_Marshal spec) as [policyJson err]. reflexivity.
Qed.

(** Characters and bytes, the other way round. *)
Lemma byte_chr_val (c : ascii) : byte_chr (byte_val c) = c.
Proof.
  unfold byte_chr, to_byte. pose proof (byte_val_range c) as Hc.
  rewrite Z.mod_small by lia. unfold byte_val. rewrite N2Z.id. apply ascii_N_embedding.
Qed.

Lemma string_of_bytes_of_string (s : string) : string_of_bytes (bytes_of_string s) = s.
Proof.
  unfold string_of_bytes, bytes_of_string. rewrite map_map.
  rewrite (map_ext _ (fun c => c)) by apply byte_chr_val.
  rewrite map_id. apply string_of_list_ascii_of_string.
Qed.

(** ** Well-formed UTF-8 *)

(** A well-formed character is the encoding of a valid rune. *)
Lemma utf8_char_encoderune (c : list Z) :
  utf8_char c -> exists r, valid_rune r /\ encoderune r = c.
Proof.
  unfold utf8_char, valid_rune, maxRune, surrogateMin, surrogateMax.
  destruct c as [|b0 [|b1 [|b2 [|b3 [|b4 c]]]]]; try contradiction.
  - intros H. exists b0. split; [lia|]. apply encoderune_1. lia.
  - intros [H0 H1]. exists ((b0 - 192) * 64 + (b1 - 128)).
    split; [lia|]. rewrite encoderune_2 by lia.
    f_equal; [|f_equal]; zarith.
  - intros [H2 H]. exists ((b0 - 224) * 4096 + (b1 - 128) * 64 + (b2 - 128)).
    split; [lia|]. rewrite encoderune_3 by lia.
    f_equal; [|f_equal; [|f_equal]]; zarith.
  - intros (H2 & H3 & H).
    exists ((b0 - 240) * 262144 + (b1 - 128) * 4096 + (b2 - 128) * 64 + (b3 - 128)).
    split; [lia|]. rewrite encoderune_4 by lia.
    f_equal; [|f_equal; [|f_equal; [|f_equal]]]; zarith.
Qed.

(** Ranging over well-formed bytes and encoding the runes gives the bytes
    back. *)
Lemma range_runes_well_formed (bs : list Z) :
  utf8_well_formed bs ->
  forall n, (length bs <= n)%nat -> concat (map encoderune (range_runes n bs)) = bs.
Proof.
  induction 1 as [|c rest Hc _ IH]; intros n Hn.
  - destruct n; reflexivity.
  - destruct (utf8_char_encoderune c Hc) as (r & Hr & <-).
    pose proof (encoderune_length r) as Hlen. rewrite length_app in Hn.
    destruct n as [|n]; [lia|].
    destruct (encoderune r ++ rest) as [|b s] eqn:Hbytes.
    { apply (f_equal length) in Hbytes. rewrite length_app in Hbytes. simpl in Hbytes. lia. }
    rewrite range_runes_cons, <- Hbytes, range_step_encoderune by exact Hr.
    simpl. rewrite drop_app_length, IH by lia. reflexivity.
Qed.

(** The first rune of well-formed bytes is the rune of the first character,
    and the other runes are those of the bytes after it. *)
Lemma range_runes_first_char (c rest : list Z) (r : rune) (n : nat) :
  valid_rune r -> encoderune r = c -> (length (c ++ rest) <= n)%nat ->
  range_runes n (c ++ rest) = r :: range_runes (length rest) rest.
Proof.
  intros Hr <- Hn. pose proof (encoderune_length r) as Hlen. rewrite length_app in Hn.
  destruct n as [|n]; [lia|].
  destruct (encoderune r ++ rest) as [|b s] eqn:Hbytes.
  { apply (f_equal length) in Hbytes. rewrite length_app in Hbytes. simpl in Hbytes. lia. }
  rewrite range_runes_cons, <- Hbytes, range_step_encoderune by exact Hr.
  simpl. rewrite drop_app_length. f_equal. apply range_runes_fuel; lia.
Qed.

Lemma encoderune_inj (r1 r2 : rune) :
  valid_rune r1 -> valid_rune r2 -> encoderune r1 = encoderune r2 -> r1 = r2.
Proof.
  intros H1 H2 Heq.
  pose proof (range_step_encoderune r1 [] H1) as E1.
  pose proof (range_step_encoderune r2 [] H2) as E2.
  rewrite Heq in E1. rewrite E1 in E2. injection E2 as ->. reflexivity.
Qed.

Lemma bytes_of_slicerunetostring (rs : list rune) :
  bytes_of_string (slicerunetostring rs) = concat (map encoderune rs).
Proof.
  unfold slicerunetostring. apply bytes_of_string_of_bytes.
  apply Forall_concat, Forall_map, Forall_forall. intros r _. apply encoderune_bytes.
Qed.


Lemma map_written_rune_valid (rs : list rune) :
  Forall valid_rune rs -> map written_rune rs = rs.
Proof.
  induction 1 as [|x l Hx _ IH]; simpl; [reflexivity|].
  rewrite written_rune_id by exact Hx. f_equal. exact IH.
Qed.

(** C7, as stated, fails on a kind that is not well-formed UTF-8: for the
    kind made of the bytes 4B FF the name is 6B EF BF BD, not 6B FF.  The
    byte after the first character is not left unchanged. *)
Lemma WithEnterpriseContractPolicy_ill_formed_kind :
  exists r' : ReleasePipelineRun,
    WithEnterpriseContractPolicy marshal_id (fun x => x)
      (NewReleasePipelineRun "release" "dev") ill_formed_policy = Returns r'
    /\ map param_Name (spec_Params (Spec r'))
       = [ String "k" (String "239" (String "191" (String "189" ""))) ]
    /\ map param_Name (spec_Params (Spec r')) <> [ String "k" (String "255" "") ].
Proof.
  eexists. split; [reflexivity|]. split; [reflexivity | discriminate].
Qed.

(** C7, amended: for a policy with a non-empty kind,
    WithEnterpriseContractPolicy returns; the Params afterwards are the
    Params before followed by exactly one parameter, and nothing else of the
    run changes.  The parameter is string-typed and its value is the bytes
    json.Marshal returned for the policy's spec.  Its name is
    [string(runes)] for the runes of the kind with the first one replaced by
    its lower case: a-z for A-Z, the rune itself for any other rune up to
    MaxASCII, the entry of the case table above that.  For a kind that is
    well-formed UTF-8 the name is the encoding of that lower case followed by
    the bytes of the kind after its first character, unchanged; for a kind
    that starts with an ASCII byte that is the kind with this one byte
    lower-cased. *)
Theorem WithEnterpriseContractPolicy_param {PolicySpec : Type}
    (json_Marshal : PolicySpec -> string * option error) (case_table_lower : rune -> rune)
    (r : ReleasePipelineRun) (policy : EnterpriseContractPolicy PolicySpec) :
  ecp_Kind policy <> "" ->
  exists (r0 : rune) (rest : list rune) (r' : ReleasePipelineRun) (p : Param),
    let lowered :=
      if r0 <=? 127 then (if (65 <=? r0) && (r0 <=? 90) then r0 + 32 else r0)
      else case_table_lower r0 in
    stringtoslicerune (ecp_Kind policy) = r0 :: rest
    /\ WithEnterpriseContractPolicy json_Marshal case_table_lower r policy = Returns r'
    /\ spec_Params (Spec r') = spec_Params (Spec r) ++ [p]
    /\ spec_PipelineRef (Spec r') = spec_PipelineRef (Spec r)
    /\ spec_ServiceAccountName (Spec r') = spec_ServiceAccountName (Spec r)
    /\ spec_Workspaces (Spec r') = spec_Workspaces (Spec r)
    /\ ObjectMeta_ r' = ObjectMeta_ r
    /\ TypeMeta_Kind r' = TypeMeta_Kind r
    /\ aos_Type (param_Value p) = ParamTypeString
    /\ aos_StringVal (param_Value p) = fst (json_Marshal (ecp_Spec policy))
    /\ aos_ArrayVal (param_Value p) = []
    /\ aos_ObjectVal (param_Value p) = ∅
    /\ bytes_of_string (param_Name p) = encoderune lowered ++ concat (map encoderune rest)
    /\ stringtoslicerune (param_Name p) = written_rune lowered :: rest
    /\ (forall first tail : list Z,
          utf8_char first -> utf8_well_formed tail ->
          bytes_of_string (ecp_Kind policy) = first ++ tail ->
          encoderune r0 = first
          /\ bytes_of_string (param_Name p) = encoderune lowered ++ tail)
    /\ (forall (c : ascii) (tail : string),
          ecp_Kind policy = String c tail -> byte_val c <= 127 ->
          utf8_well_formed (bytes_of_string tail) ->
          param_Name p
          = String (if (65 <=? byte_val c) && (byte_val c <=? 90)
                    then byte_chr (byte_val c + 32) else c) tail).
Proof.
  intros Hkind.
  destruct (stringtoslicerune (ecp_Kind policy)) as [|r0 rest] eqn:Hrunes.
  { apply stringtoslicerune_nil in Hrunes. contradiction. }
  pose proof (stringtoslicerune_valid (ecp_Kind policy)) as Hvalid.
  rewrite Hrunes in Hvalid. apply Forall_cons in Hvalid as [Hr0 Hrest].
  set (name := slicerunetostring (unicode_ToLower case_table_lower r0 :: rest)).
  exists r0, rest,
    (WithExtraParam r name (string_value (fst (json_Marshal (ecp_Spec policy))))),
    {| param_Name := name;
       param_Value := string_value (fst (json_Marshal (ecp_Spec policy))) |}.
  intros lowered.
  assert (Hlow : unicode_ToLower case_table_lower r0 = lowered) by reflexivity.
  assert (Hbytes : bytes_of_string name = encoderune lowered ++ concat (map encoderune rest)).
  { unfold name. rewrite bytes_of_slicerunetostring, Hlow. reflexivity. }
  assert (Hname : stringtoslicerune name = written_rune lowered :: rest).
  { unfold name. rewrite stringtoslicerune_slicerunetostring, Hlow. simpl. f_equal.
    apply map_written_rune_valid. exact Hrest. }
  assert (Hwf : forall first tail : list Z,
             utf8_char first -> utf8_well_formed tail ->
             bytes_of_string (ecp_Kind policy) = first ++ tail ->
             encoderune r0 = first
             /\ bytes_of_string name = encoderune lowered ++ tail).
  { intros first tail Hfirst Htail Hsplit.
    destruct (utf8_char_encoderune first Hfirst) as (rf & Hrf & Hef).
    unfold stringtoslicerune in Hrunes. rewrite Hsplit in Hrunes.
    rewrite (range_runes_first_char first tail rf _ Hrf Hef) in Hrunes by lia.
    injection Hrunes as <- <-. split; [exact Hef|].
    rewrite Hbytes. f_equal. apply range_runes_well_formed; [exact Htail | lia]. }
  split; [reflexivity|]. split.
  { unfold WithEnterpriseContractPolicy. rewrite Hrunes.
    destruct (json_Marshal (ecp_Spec policy)) as [policyJson err]. reflexivity. }
  do 10 (split; [reflexivity|]).
  split; [exact Hbytes|]. split; [exact Hname|]. split; [exact Hwf|].
  intros c tail Hc Hascii Htail.
  pose proof (byte_val_range c) as Hrange.
  destruct (Hwf [byte_val c] (bytes_of_string tail)) as [Hfirst Hn].
  { simpl. lia. }
  { exact Htail. }
  { rewrite Hc. reflexivity. }
  assert (Hr0c : r0 = byte_val c).
  { apply encoderune_inj; [exact Hr0 | | ].
    - unfold valid_rune, maxRune, surrogateMin, surrogateMax. lia.
    - rewrite Hfirst, encoderune_1 by lia. reflexivity. }
  cbn [param_Name].
  transitivity (string_of_bytes (bytes_of_string name));
    [symmetry; apply string_of_bytes_of_string|].
  rewrite Hn.
  unfold lowered. rewrite Hr0c.
  destruct (Z.leb_spec (byte_val c) 127) as [_|Hgt]; [|lia].
  destruct (Z.leb_spec 65 (byte_val c)), (Z.leb_spec (byte_val c) 90); simpl andb; cbv iota;
    rewrite encoderune_1 by lia;
    unfold string_of_bytes; cbn [app map string_of_list_ascii];
    rewrite ?byte_chr_val; f_equal; apply (string_of_bytes_of_string tail).
Qed.

Lemma WithEnterpriseContractPolicy_param_witness :
  ecp_Kind sample_policy <> ""
  /\ (exists (r' : ReleasePipelineRun) (p : Param),
        WithEnterpriseContractPolicy marshal_id (fun x => x)
          (NewReleasePipelineRun "release" "dev") sample_policy = Returns r'
        /\ spec_Params (Spec r') = [p]
        /\ param_Name p = "enterpriseContractPolicy"
        /\ aos_StringVal (param_Value p) = "{}")
  /\ (exists (r' : ReleasePipelineRun) (p : Param),
        WithEnterpriseContractPolicy marshal_id sample_case_table
          (NewReleasePipelineRun "release" "dev") accented_policy = Returns r'
        /\ spec_Params (Spec r') = [p]
        /\ bytes_of_string (param_Name p) = [195; 169; 99; 111; 108; 101]).
Proof.
  assert (Hkind : ecp_Kind sample_policy <> "") by discriminate.
  assert (Haccented : ecp_Kind accented_policy <> "") by discriminate.
  split; [exact Hkind|]. split.
  - destruct (WithEnterpriseContractPolicy_param marshal_id (fun x => x)
                (NewReleasePipelineRun "release" "dev") sample_policy Hkind)
      as (r0 & rest & r' & p & _ & Hret & Hparams & _ & _ & _ & _ & _ & _ & Hval
          & _ & _ & _ & _ & _ & Hascii).
    exists r', p. split; [exact Hret|]. split; [exact Hparams|]. split; [|exact Hval].
    apply (Hascii "E"%char "nterpriseContractPolicy" eq_refl).
    + vm_compute. discriminate.
    + change (bytes_of_string "nterpriseContractPolicy")
        with [110; 116; 101; 114; 112; 114; 105; 115; 101; 67; 111; 110; 116; 114; 97; 99;
              116; 80; 111; 108; 105; 99; 121].
      repeat (refine (utf8_next [_] _ _ _); [simpl; lia|]). apply utf8_empty.
  - destruct (WithEnterpriseContractPolicy_param marshal_id sample_case_table
                (NewReleasePipelineRun "release" "dev") accented_policy Haccented)
      as (r0 & rest & r' & p & Hrunes & Hret & Hparams & _ & _ & _ & _ & _ & _ & _
          & _ & _ & _ & _ & Hwf & _).
    exists r', p. split; [exact Hret|]. split; [exact Hparams|].
    injection Hrunes as <- _.
    refine (proj2 (Hwf [195; 137] [99; 111; 108; 101] _ _ eq_refl)).
    + simpl. lia.
    + repeat (refine (utf8_next [_] _ _ _); [simpl; lia|]). apply utf8_empty.
Defined.

(** The example of the spec: "EnterpriseContractPolicy" gives the name
    "enterpriseContractPolicy". *)
Example WithEnterpriseContractPolicy_sample :
  WithEnterpriseContractPolicy marshal_id (fun x => x)
    (NewReleasePipelineRun "release" "dev") sample_policy
  = Returns (WithExtraParam (NewReleasePipelineRun "release" "dev")
               "enterpriseContractPolicy" (string_value "{}")).
Proof. reflexivity. Qed.

(** ** Kinds made of ASCII bytes: the name byte for byte *)




(** WithEnterpriseContractPolicy returns exactly when the kind is not
    empty. *)
Lemma WithEnterpriseContractPolicy_returns_iff {PolicySpec : Type}
    (json_Marshal : PolicySpec -> string * option error) (case_table_lower : rune -> rune)
    (r : ReleasePipelineRun) (policy : EnterpriseContractPolicy PolicySpec) :
  (exists r', WithEnterpriseContractPolicy json_Marshal case_table_lower r policy = Returns r')
  <-> ecp_Kind policy <> "".
Proof.
  unfold WithEnterpriseContractPolicy.
  destruct (json_Marshal (ecp_Spec policy)) as [policyJson err].
  destruct (stringtoslicerune (ecp_Kind policy)) as [|r0 rest] eqn:Hrunes.
  - apply stringtoslicerune_nil in Hrunes. split.
    + intros [r' Hr']. discriminate Hr'.
    + intros Hkind. contradiction.
  - split.
    + intros _ Hkind. apply stringtoslicerune_nil in Hkind. congruence.
    + intros _. eexists. reflexivity.
Qed.

(** ** End-to-end scenarios *)

(** Strategy with pipeline "build", no bundle, one parameter verbose="true"
    and claim "pvc-1", default workspace name "release-ws": a direct
    reference, one scalar parameter, one workspace binding. *)
Example scenario_direct_reference :
  let run := WithReleaseStrategy env_release_ws (NewReleasePipelineRun "release" "dev")
               strategy_build in
  (pref_Name <$> spec_PipelineRef (Spec run)) = Some "build"
  /\ (pref_ResolverRef <$> spec_PipelineRef (Spec run)) = Some ResolverRef_zero
  /\ spec_Params (Spec run)
     = [ {| param_Name := "verbose"; param_Value := string_value "true" |} ]
  /\ spec_Workspaces (Spec run)
     = [ {| wb_Name := "release-ws"; wb_SubPath := "";
            wb_PersistentVolumeClaim :=
              Some {| pvc_ClaimName := "pvc-1"; pvc_ReadOnly := false |} |} ].
Proof. repeat split. Qed.

(** Strategy with bundle "quay.io/foo:v1" and pipeline "deploy": a
    resolver-based reference with the three parameters in order; with no
    default workspace in the environment, no workspace is bound. *)
Example scenario_bundle_reference :
  let run := WithReleaseStrategy ∅ (NewReleasePipelineRun "release" "dev") strategy_bundle in
  (pref_ResolverRef <$> spec_PipelineRef (Spec run))
  = Some {| rr_Resolver := "bundles";
            rr_Params :=
              [ {| param_Name := "bundle"; param_Value := string_value "quay.io/foo:v1" |};
                {| param_Name := "kind"; param_Value := string_value "pipeline" |};
                {| param_Name := "name"; param_Value := string_value "deploy" |} ] |}
  /\ spec_Workspaces (Spec run) = [].
Proof. repeat split. Qed.

(** ** Object references *)

(** WithObjectReferences appends one string parameter per object, in order:
    the lower-cased kind as name and namespace/name as value. *)
Lemma WithObjectReferences_Params (strings_ToLower : string -> string)
    (objects : list ClientObject) :
  forall r : ReleasePipelineRun,
    spec_Params (Spec (WithObjectReferences strings_ToLower r objects))
    = spec_Params (Spec r)
      ++ map (fun object =>
                {| param_Name := strings_ToLower (obj_Kind object);
                   param_Value :=
                     string_value (obj_Namespace object ++ "/" ++ obj_Name object)%string |})
             objects.
Proof.
  unfold WithObjectReferences.
  induction objects as [|object objects IH]; intros r; simpl.
  - symmetry. apply app_nil_r.
  - rewrite IH, WithExtraParam_Params, <- app_assoc. reflexivity.
Qed.

(** * Further properties of the builder *)

Local Close Scope Z_scope.

(** ** The strategy loop, in full *)

Lemma set_Params_set_Params (r : ReleasePipelineRun) (ps qs : list Param) :
  set_Params (set_Params r ps) qs = set_Params r qs.
Proof. reflexivity. Qed.

Lemma set_Params_same (r : ReleasePipelineRun) : set_Params r (spec_Params (Spec r)) = r.
Proof. destruct r as [k m [ref ps sa ws]]. reflexivity. Qed.

(** The loop changes the Params and nothing else. *)
Lemma strategy_params_loop_run (params : list StrategyParam) :
  forall (valueType : ParamType) (r : ReleasePipelineRun),
    snd (strategy_params_loop valueType r params)
    = set_Params r (spec_Params (Spec r) ++ assembled_params valueType params).
Proof.
  unfold strategy_params_loop.
  induction params as [|param params IH]; intros valueType r; simpl.
  - rewrite app_nil_r. symmetry. apply set_Params_same.
  - unfold strategy_param_step at 2. simpl. rewrite IH.
    unfold WithExtraParam. rewrite set_Params_set_Params. simpl.
    rewrite <- app_assoc. reflexivity.
Qed.

(** The workspace claim WithReleaseStrategy passes on: the strategy's, or
    the default of the environment when the strategy names none. *)
Lemma WithReleaseStrategy_run (env : gmap string string) (r : ReleasePipelineRun)
    (strategy : ReleaseStrategy) :
  WithReleaseStrategy env r strategy
  = WithServiceAccount
      (WithWorkspace
         (set_Params (set_PipelineRef r (Some (getPipelineRef strategy)))
            (spec_Params (Spec r)
             ++ assembled_params ParamTypeString (rs_Params (strategy_Spec strategy))))
         (Getenv env "DEFAULT_RELEASE_WORKSPACE_NAME")
         (if bool_decide (rs_PersistentVolumeClaim (strategy_Spec strategy) = "")
          then Getenv env "DEFAULT_RELEASE_PVC"
          else rs_PersistentVolumeClaim (strategy_Spec strategy)))
      (rs_ServiceAccount (strategy_Spec strategy)).
Proof.
  unfold WithReleaseStrategy. cbv zeta. rewrite strategy_params_loop_run.
  destruct (bool_decide _); reflexivity.
Qed.

Lemma assembled_params_length (params : list StrategyParam) :
  forall valueType, length (assembled_params valueType params) = length params.
Proof. induction params as [|p params IH]; intros vt; simpl; [reflexivity | rewrite IH; reflexivity]. Qed.

Lemma assembled_params_names (params : list StrategyParam) :
  forall valueType, map param_Name (assembled_params valueType params) = map sp_Name params.
Proof. induction params as [|p params IH]; intros vt; simpl; [reflexivity | rewrite IH; reflexivity]. Qed.

(** The tag at position [i]: list-shaped exactly when the incoming tag was,
    or a parameter up to [i] has list values. *)
Lemma assembled_params_tag (params : list StrategyParam) :
  forall (valueType : ParamType) (i : nat) (q : Param),
    assembled_params valueType params !! i = Some q ->
    (aos_Type (param_Value q) = ParamTypeArray
     <-> valueType = ParamTypeArray
         \/ exists (j : nat) (p : StrategyParam),
              (j <= i)%nat /\ params !! j = Some p /\ sp_Values p <> []).
Proof.
  induction params as [|p0 params IH]; intros valueType i q Hq; [discriminate|].
  destruct i as [|i]; simpl in Hq.
  - injection Hq as <-. simpl. split.
    + destruct (sp_Values p0) as [|v vs] eqn:Hv; simpl.
      * intros ->. left. reflexivity.
      * intros _. right. exists 0%nat, p0. rewrite Hv. repeat split; [lia | discriminate].
    + intros [-> | (j & p & Hj & Hp & Hne)].
      * destruct (sp_Values p0); reflexivity.
      * assert (j = 0%nat) by lia. subst j. simpl in Hp. injection Hp as ->.
        destruct (sp_Values p) as [|v vs]; [congruence | reflexivity].
  - apply IH in Hq. rewrite Hq. split.
    + intros [Hvt | (j & p & Hj & Hp & Hne)].
      * destruct (sp_Values p0) as [|v vs] eqn:Hv; simpl in Hvt.
        -- left. exact Hvt.
        -- right. exists 0%nat, p0. rewrite Hv. repeat split; [lia | discriminate].
      * right. exists (S j), p. repeat split; [lia | exact Hp | exact Hne].
    + intros [-> | (j & p & Hj & Hp & Hne)].
      * left. destruct (sp_Values p0); reflexivity.
      * destruct j as [|j]; simpl in Hp.
        -- injection Hp as ->. left. destruct (sp_Values p) as [|v vs]; [congruence | reflexivity].
        -- right. exists j, p. repeat split; [lia | exact Hp | exact Hne].
Qed.

(** X1: the shape tag WithReleaseStrategy gives the strategy's parameter at
    position [i] is list-shaped exactly when that parameter or one before it
    in the strategy carries list values; the parameters already on the run
    play no part. *)
Theorem WithReleaseStrategy_tag_iff (env : gmap string string) (r : ReleasePipelineRun)
    (strategy : ReleaseStrategy) (i : nat) (q : Param) :
  spec_Params (Spec (WithReleaseStrategy env r strategy))
    !! (length (spec_Params (Spec r)) + i)%nat = Some q ->
  (aos_Type (param_Value q) = ParamTypeArray
   <-> exists (j : nat) (p : StrategyParam),
         (j <= i)%nat /\ rs_Params (strategy_Spec strategy) !! j = Some p
         /\ sp_Values p <> []).
Proof.
  rewrite WithReleaseStrategy_Params, lookup_app_r by lia.
  replace (length (spec_Params (Spec r)) + i - length (spec_Params (Spec r)))%nat
    with i by lia.
  intros Hq. apply assembled_params_tag in Hq. rewrite Hq. split.
  - intros [Hvt | Hex]; [discriminate Hvt | exact Hex].
  - intros Hex. right. exact Hex.
Qed.

Lemma WithReleaseStrategy_tag_iff_witness :
  aos_Type
    (param_Value
       {| param_Name := "verbose";
          param_Value := {| aos_Type := ParamTypeArray; aos_StringVal := "true";
                            aos_ArrayVal := []; aos_ObjectVal := ∅ |} |})
  = ParamTypeArray
  <-> exists (j : nat) (p : StrategyParam),
        (j <= 1)%nat /\ rs_Params (strategy_Spec strategy_list_then_scalar) !! j = Some p
        /\ sp_Values p <> [].
Proof.
  exact (WithReleaseStrategy_tag_iff ∅ (NewReleasePipelineRun "release" "dev")
           strategy_list_then_scalar 1
           {| param_Name := "verbose";
              param_Value := {| aos_Type := ParamTypeArray; aos_StringVal := "true";
                                aos_ArrayVal := []; aos_ObjectVal := ∅ |} |}
           eq_refl).
Defined.

(** X2: WithReleaseStrategy keeps the Params already on the run and appends
    exactly one Param per parameter of the strategy, in the strategy's order
    and under the strategy's names, repeated names included. *)
Theorem WithReleaseStrategy_appends_in_order (env : gmap string string)
    (r : ReleasePipelineRun) (strategy : ReleaseStrategy) :
  exists added : list Param,
    spec_Params (Spec (WithReleaseStrategy env r strategy)) = spec_Params (Spec r) ++ added
    /\ length added = length (rs_Params (strategy_Spec strategy))
    /\ map param_Name added = map sp_Name (rs_Params (strategy_Spec strategy))
    /\ map (fun q => aos_StringVal (param_Value q)) added
       = map sp_Value (rs_Params (strategy_Spec strategy))
    /\ map (fun q => aos_ArrayVal (param_Value q)) added
       = map sp_Values (rs_Params (strategy_Spec strategy)).
Proof.
  exists (assembled_params ParamTypeString (rs_Params (strategy_Spec strategy))).
  split; [apply WithReleaseStrategy_Params|].
  split; [apply assembled_params_length|].
  split; [apply assembled_params_names|].
  generalize ParamTypeString.
  induction (rs_Params (strategy_Spec strategy)) as [|p params IH]; intros vt; simpl.
  - split; reflexivity.
  - destruct (IH (if (0 <? length (sp_Values p))%nat then ParamTypeArray else vt)) as [H1 H2].
    rewrite H1, H2. split; reflexivity.
Qed.

(** ** Workspaces *)

Lemma WithWorkspace_skip (r : ReleasePipelineRun) (name claim : string) :
  name = "" \/ claim = "" -> WithWorkspace r name claim = r.
Proof.
  intros Hempty. unfold WithWorkspace.
  destruct (bool_decide_reflect (name = "")) as [_|Hn]; [reflexivity|].
  destruct (bool_decide_reflect (claim = "")) as [_|Hc]; [reflexivity|].
  tauto.
Qed.

Lemma WithWorkspace_add (r : ReleasePipelineRun) (name claim : string) :
  name <> "" -> claim <> "" ->
  WithWorkspace r name claim
  = set_Workspaces r (spec_Workspaces (Spec r) ++ [claim_binding name claim]).
Proof.
  intros Hn Hc. unfold WithWorkspace.
  rewrite (bool_decide_eq_false_2 _ Hn), (bool_decide_eq_false_2 _ Hc). reflexivity.
Qed.

Lemma Getenv_unset (env : gmap string string) (k : string) :
  env !! k = None -> Getenv env k = "".
Proof. unfold Getenv. intros ->. reflexivity. Qed.

Lemma Getenv_set (env : gmap string string) (k v : string) :
  env !! k = Some v -> Getenv env k = v.
Proof. unfold Getenv. intros ->. reflexivity. Qed.

Lemma WithReleaseStrategy_Workspaces (env : gmap string string) (r : ReleasePipelineRun)
    (strategy : ReleaseStrategy) :
  spec_Workspaces (Spec (WithReleaseStrategy env r strategy))
  = spec_Workspaces
      (Spec (WithWorkspace r
               (Getenv env "DEFAULT_RELEASE_WORKSPACE_NAME")
               (if bool_decide (rs_PersistentVolumeClaim (strategy_Spec strategy) = "")
                then Getenv env "DEFAULT_RELEASE_PVC"
                else rs_PersistentVolumeClaim (strategy_Spec strategy)))).
Proof.
  rewrite WithReleaseStrategy_run. unfold WithServiceAccount, WithWorkspace.
  destruct (_ || _); reflexivity.
Qed.

(** X3: which workspace WithReleaseStrategy binds.  Without a default
    workspace name in the environment nothing is bound, whatever claim the
    strategy names.  With a name [n]: a strategy that names a claim gets the
    binding of [n] to that claim, the default claim of the environment being
    ignored; a strategy that names none gets the binding of [n] to the
    default claim, and nothing when that default is unset too. *)
Theorem WithReleaseStrategy_workspace_choice (env : gmap string string)
    (r : ReleasePipelineRun) (strategy : ReleaseStrategy) :
  let bound := spec_Workspaces (Spec (WithReleaseStrategy env r strategy)) in
  let claim := rs_PersistentVolumeClaim (strategy_Spec strategy) in
  (env !! "DEFAULT_RELEASE_WORKSPACE_NAME" = None -> bound = spec_Workspaces (Spec r))
  /\ (forall n, env !! "DEFAULT_RELEASE_WORKSPACE_NAME" = Some n -> n <> "" ->
        (claim <> "" -> bound = spec_Workspaces (Spec r) ++ [claim_binding n claim])
        /\ (claim = "" ->
            (forall d, env !! "DEFAULT_RELEASE_PVC" = Some d -> d <> "" ->
               bound = spec_Workspaces (Spec r) ++ [claim_binding n d])
            /\ (env !! "DEFAULT_RELEASE_PVC" = None -> bound = spec_Workspaces (Spec r)))).
Proof.
  intros bound claim. unfold bound. rewrite WithReleaseStrategy_Workspaces. fold claim.
  split.
  - intros Hunset. rewrite (Getenv_unset _ _ Hunset), WithWorkspace_skip by (left; reflexivity).
    reflexivity.
  - intros n Hn Hne. rewrite (Getenv_set _ _ _ Hn). split.
    + intros Hclaim. rewrite (bool_decide_eq_false_2 _ Hclaim).
      rewrite WithWorkspace_add by assumption. reflexivity.
    + intros Hclaim. rewrite (bool_decide_eq_true_2 _ Hclaim). split.
      * intros d Hd Hdne. rewrite (Getenv_set _ _ _ Hd), WithWorkspace_add by assumption.
        reflexivity.
      * intros Hunset. rewrite (Getenv_unset _ _ Hunset), WithWorkspace_skip by (right; reflexivity).
        reflexivity.
Qed.

Lemma WithReleaseStrategy_workspace_choice_witness :
  spec_Workspaces (Spec (WithReleaseStrategy ∅ (NewReleasePipelineRun "release" "dev")
                                             strategy_build)) = []
  /\ spec_Workspaces (Spec (WithReleaseStrategy env_both_defaults
                              (NewReleasePipelineRun "release" "dev") strategy_build))
     = [claim_binding "release-ws" "pvc-1"]
  /\ spec_Workspaces (Spec (WithReleaseStrategy env_both_defaults
                              (NewReleasePipelineRun "release" "dev") strategy_bundle))
     = [claim_binding "release-ws" "default-pvc"]
  /\ spec_Workspaces (Spec (WithReleaseStrategy env_release_ws
                              (NewReleasePipelineRun "release" "dev") strategy_bundle))
     = [].
Proof.
  split; [|split; [|split]].
  - exact (proj1 (WithReleaseStrategy_workspace_choice ∅
                    (NewReleasePipelineRun "release" "dev") strategy_build) eq_refl).
  - refine (proj1 (proj2 (WithReleaseStrategy_workspace_choice env_both_defaults
                      (NewReleasePipelineRun "release" "dev") strategy_build)
                     "release-ws" eq_refl _) _); discriminate.
  - refine (proj1 (proj2 (proj2 (WithReleaseStrategy_workspace_choice env_both_defaults
                      (NewReleasePipelineRun "release" "dev") strategy_bundle)
                     "release-ws" eq_refl _) eq_refl) "default-pvc" eq_refl _); discriminate.
  - refine (proj2 (proj2 (proj2 (WithReleaseStrategy_workspace_choice env_release_ws
                      (NewReleasePipelineRun "release" "dev") strategy_bundle)
                     "release-ws" eq_refl _) eq_refl) eq_refl); discriminate.
Defined.

(** X4: WithReleaseStrategy replaces the pipeline reference and the service
    account by those of the strategy, so after two calls the second
    strategy's are in place, and it leaves the type and object metadata
    (names, namespace, labels, annotations, finalizers) as they were. *)
Theorem WithReleaseStrategy_overwrites (env : gmap string string) (r : ReleasePipelineRun)
    (first second : ReleaseStrategy) :
  let once := WithReleaseStrategy env r first in
  let twice := WithReleaseStrategy env once second in
  spec_PipelineRef (Spec once) = Some (getPipelineRef first)
  /\ spec_ServiceAccountName (Spec once) = rs_ServiceAccount (strategy_Spec first)
  /\ spec_PipelineRef (Spec twice) = Some (getPipelineRef second)
  /\ spec_ServiceAccountName (Spec twice) = rs_ServiceAccount (strategy_Spec second)
  /\ ObjectMeta_ twice = ObjectMeta_ r
  /\ TypeMeta_Kind twice = TypeMeta_Kind r.
Proof.
  intros once twice. unfold twice, once.
  rewrite !WithReleaseStrategy_run. unfold WithServiceAccount, WithWorkspace.
  repeat match goal with |- context [if ?b then _ else _] => destruct b end;
    repeat split.
Qed.

(** X5: WithWorkspace never replaces or drops a binding and touches nothing
    but the bindings: the bindings before the call are a prefix of those
    after it, the count grows by one exactly when both strings are non-empty,
    and a second call with the same strings adds the same binding again. *)
Theorem WithWorkspace_accumulates (r : ReleasePipelineRun) (name claim : string) :
  spec_Workspaces (Spec r) `prefix_of` spec_Workspaces (Spec (WithWorkspace r name claim))
  /\ length (spec_Workspaces (Spec (WithWorkspace r name claim)))
     = (length (spec_Workspaces (Spec r))
        + (if bool_decide (name <> "" /\ claim <> "") then 1 else 0))%nat
  /\ (name <> "" -> claim <> "" ->
      spec_Workspaces (Spec (WithWorkspace (WithWorkspace r name claim) name claim))
      = spec_Workspaces (Spec r) ++ [claim_binding name claim; claim_binding name claim])
  /\ set_Workspaces (WithWorkspace r name claim) (spec_Workspaces (Spec r)) = r.
Proof.
  destruct (decide (name = "")) as [Hn|Hn]; [|destruct (decide (claim = "")) as [Hc|Hc]].
  - rewrite WithWorkspace_skip by (left; exact Hn).
    rewrite bool_decide_eq_false_2 by tauto.
    repeat split; [reflexivity | lia | tauto |].
    destruct r as [k m [ref ps sa ws]]. reflexivity.
  - rewrite WithWorkspace_skip by (right; exact Hc).
    rewrite bool_decide_eq_false_2 by tauto.
    repeat split; [reflexivity | lia | tauto |].
    destruct r as [k m [ref ps sa ws]]. reflexivity.
  - rewrite bool_decide_eq_true_2 by tauto.
    rewrite !WithWorkspace_add by assumption. simpl.
    repeat split.
    + apply prefix_app_r. reflexivity.
    + rewrite length_app. reflexivity.
    + intros _ _. rewrite <- app_assoc. reflexivity.
    + destruct r as [k m [ref ps sa ws]]. reflexivity.
Qed.

Lemma WithWorkspace_accumulates_witness :
  spec_Workspaces
    (Spec (WithWorkspace (WithWorkspace (NewReleasePipelineRun "release" "dev")
                                        "release-ws" "pvc-1") "release-ws" "pvc-1"))
  = spec_Workspaces (Spec (NewReleasePipelineRun "release" "dev"))
    ++ [claim_binding "release-ws" "pvc-1"; claim_binding "release-ws" "pvc-1"].
Proof.
  refine (proj1 (proj2 (proj2 (WithWorkspace_accumulates
                                 (NewReleasePipelineRun "release" "dev")
                                 "release-ws" "pvc-1"))) _ _); discriminate.
Defined.

(** ** The reference determines the template locator *)

(** X6: getPipelineRef loses nothing: two strategies get the same reference
    only when they name the same bundle and the same pipeline, so a direct
    reference is never mistaken for a bundle reference. *)
Theorem getPipelineRef_injective (s1 s2 : ReleaseStrategy) :
  getPipelineRef s1 = getPipelineRef s2 <->
  rs_Bundle (strategy_Spec s1) = rs_Bundle (strategy_Spec s2)
  /\ rs_Pipeline (strategy_Spec s1) = rs_Pipeline (strategy_Spec s2).
Proof.
  unfold getPipelineRef, getBundleResolver. split.
  - destruct (bool_decide_reflect (rs_Bundle (strategy_Spec s1) = "")) as [H1|H1],
             (bool_decide_reflect (rs_Bundle (strategy_Spec s2) = "")) as [H2|H2];
      intros Href.
    + injection Href as Hname. split; congruence.
    + discriminate Href.
    + discriminate Href.
    + injection Href as Hbundle Hname. split; assumption.
  - intros [Hb Hp]. rewrite Hb, Hp. reflexivity.
Qed.

Ltac split_ands := repeat match goal with |- _ /\ _ => split end.

(** ** Mutators that work on the Spec alone *)

Lemma spec_only_compose (f g : ReleasePipelineRun -> ReleasePipelineRun) :
  spec_only f -> spec_only g -> spec_only (fun r => g (f r)).
Proof.
  intros [f' Hf] [g' Hg]. exists (fun s => g' (f' s)). intros r.
  rewrite Hf, Hg. reflexivity.
Qed.

Lemma spec_only_id : spec_only (fun r => r).
Proof. exists (fun s => s). intros [k m s]. reflexivity. Qed.

Lemma spec_only_WithExtraParam (name : string) (value : ArrayOrString) :
  spec_only (fun r => WithExtraParam r name value).
Proof.
  exists (fun s => {| spec_PipelineRef := spec_PipelineRef s;
                      spec_Params := spec_Params s
                                     ++ [ {| param_Name := name; param_Value := value |} ];
                      spec_ServiceAccountName := spec_ServiceAccountName s;
                      spec_Workspaces := spec_Workspaces s |}).
  intros r. reflexivity.
Qed.

Lemma spec_only_fold {A : Type} (step : ReleasePipelineRun -> A -> ReleasePipelineRun)
    (l : list A) :
  (forall a, spec_only (fun r => step r a)) -> spec_only (fun r => fold_left step l r).
Proof.
  intros Hstep. induction l as [|a l IH]; simpl.
  - apply spec_only_id.
  - apply (spec_only_compose (fun r => step r a) (fun r => fold_left step l r));
      [apply Hstep | exact IH].
Qed.

Lemma spec_only_WithEnterpriseContractConfigMap (ecConfig : ConfigMap) :
  spec_only (fun r => WithEnterpriseContractConfigMap r ecConfig).
Proof.
  unfold WithEnterpriseContractConfigMap.
  apply (spec_only_fold
           (fun acc field =>
              WithExtraParam acc field (string_value (map_index (cm_Data ecConfig) field)))).
  intros field. apply spec_only_WithExtraParam.
Qed.

Lemma spec_only_WithObjectReferences (strings_ToLower : string -> string)
    (objects : list ClientObject) :
  spec_only (fun r => WithObjectReferences strings_ToLower r objects).
Proof.
  unfold WithObjectReferences.
  apply (spec_only_fold
           (fun acc object =>
              WithExtraParam acc (strings_ToLower (obj_Kind object))
                (string_value (obj_Namespace object ++ "/" ++ obj_Name object)%string))).
  intros object. apply spec_only_WithExtraParam.
Qed.

Lemma spec_only_WithServiceAccount (serviceAccount : string) :
  spec_only (fun r => WithServiceAccount r serviceAccount).
Proof.
  exists (fun s => {| spec_PipelineRef := spec_PipelineRef s;
                      spec_Params := spec_Params s;
                      spec_ServiceAccountName := serviceAccount;
                      spec_Workspaces := spec_Workspaces s |}).
  intros r. reflexivity.
Qed.

Lemma spec_only_WithWorkspace (name claim : string) :
  spec_only (fun r => WithWorkspace r name claim).
Proof.
  unfold WithWorkspace. destruct (_ || _).
  - apply spec_only_id.
  - exists (fun s => {| spec_PipelineRef := spec_PipelineRef s;
                        spec_Params := spec_Params s;
                        spec_ServiceAccountName := spec_ServiceAccountName s;
                        spec_Workspaces :=
                          spec_Workspaces s
                          ++ [ {| wb_Name := name; wb_SubPath := "";
                                  wb_PersistentVolumeClaim :=
                                    Some {| pvc_ClaimName := claim;
                                            pvc_ReadOnly := false |} |} ] |}).
    intros r. reflexivity.
Qed.

Lemma spec_only_WithReleaseStrategy (env : gmap string string) (strategy : ReleaseStrategy) :
  spec_only (fun r => WithReleaseStrategy env r strategy).
Proof.
  assert (Hparams : spec_only (fun r =>
            set_Params (set_PipelineRef r (Some (getPipelineRef strategy)))
              (spec_Params (Spec r)
               ++ assembled_params ParamTypeString (rs_Params (strategy_Spec strategy))))).
  { exists (fun s => {| spec_PipelineRef := Some (getPipelineRef strategy);
                        spec_Params :=
                          spec_Params s
                          ++ assembled_params ParamTypeString
                               (rs_Params (strategy_Spec strategy));
                        spec_ServiceAccountName := spec_ServiceAccountName s;
                        spec_Workspaces := spec_Workspaces s |}).
    intros r. reflexivity. }
  destruct (spec_only_compose _ _
              (spec_only_compose _ _ Hparams
                 (spec_only_WithWorkspace
                    (Getenv env "DEFAULT_RELEASE_WORKSPACE_NAME")
                    (if bool_decide (rs_PersistentVolumeClaim (strategy_Spec strategy) = "")
                     then Getenv env "DEFAULT_RELEASE_PVC"
                     else rs_PersistentVolumeClaim (strategy_Spec strategy))))
              (spec_only_WithServiceAccount (rs_ServiceAccount (strategy_Spec strategy))))
    as [g Hg].
  exists g. intros r. rewrite WithReleaseStrategy_run. apply Hg.
Qed.

Lemma spec_only_WithEnterpriseContractPolicy {PolicySpec : Type}
    (json_Marshal : PolicySpec -> string * option error) (case_table_lower : rune -> rune)
    (policy : EnterpriseContractPolicy PolicySpec) :
  exists (name : string),
    forall r r',
      WithEnterpriseContractPolicy json_Marshal case_table_lower r policy = Returns r' ->
      r' = WithExtraParam r name (string_value (fst (json_Marshal (ecp_Spec policy)))).
Proof.
  unfold WithEnterpriseContractPolicy.
  destruct (json_Marshal (ecp_Spec policy)) as [policyJson err].
  destruct (stringtoslicerune (ecp_Kind policy)) as [|r0 rest].
  - exists "". intros r r' Hr. discriminate Hr.
  - eexists. intros r r' Hr. injection Hr as <-. reflexivity.
Qed.

(** The metadata mutator rewrites the object metadata from the metadata
    alone and leaves the Spec as it is. *)
Lemma WithReleaseAndApplicationMetadata_meta_only (names : MetadataNames) (release : Release)
    (applicationName : string) (r : ReleasePipelineRun) :
  WithReleaseAndApplicationMetadata names r release applicationName
  = {| TypeMeta_Kind := TypeMeta_Kind r;
       ObjectMeta_ :=
         ObjectMeta_ (WithReleaseAndApplicationMetadata names
                        {| TypeMeta_Kind := ""; ObjectMeta_ := ObjectMeta_ r;
                           Spec := Spec (NewReleasePipelineRun "" "") |}
                        release applicationName);
       Spec := Spec r |}.
Proof. reflexivity. Qed.

(** X7: the builder's mutators can be applied in either order when one works
    on the Spec and the other on the metadata: stamping the release and
    application metadata before or after WithExtraParam,
    WithEnterpriseContractConfigMap, WithObjectReferences, WithReleaseStrategy,
    WithWorkspace or WithServiceAccount gives the same PipelineRun. *)
Theorem metadata_commutes_with_spec_mutators (names : MetadataNames) (release : Release)
    (applicationName : string) (r : ReleasePipelineRun) :
  let stamp := fun run => WithReleaseAndApplicationMetadata names run release applicationName in
  (forall name value, stamp (WithExtraParam r name value) = WithExtraParam (stamp r) name value)
  /\ (forall ecConfig,
        stamp (WithEnterpriseContractConfigMap r ecConfig)
        = WithEnterpriseContractConfigMap (stamp r) ecConfig)
  /\ (forall strings_ToLower objects,
        stamp (WithObjectReferences strings_ToLower r objects)
        = WithObjectReferences strings_ToLower (stamp r) objects)
  /\ (forall env strategy,
        stamp (WithReleaseStrategy env r strategy) = WithReleaseStrategy env (stamp r) strategy)
  /\ (forall name claim, stamp (WithWorkspace r name claim) = WithWorkspace (stamp r) name claim)
  /\ (forall serviceAccount,
        stamp (WithServiceAccount r serviceAccount) = WithServiceAccount (stamp r) serviceAccount).
Proof.
  intros stamp.
  assert (Hcomm : forall f, spec_only f -> stamp (f r) = f (stamp r)).
  { intros f [g Hg]. unfold stamp. rewrite !Hg. reflexivity. }
  split_ands; intros.
  - apply (Hcomm (fun run => WithExtraParam run name value)), spec_only_WithExtraParam.
  - apply (Hcomm (fun run => WithEnterpriseContractConfigMap run ecConfig)),
      spec_only_WithEnterpriseContractConfigMap.
  - apply (Hcomm (fun run => WithObjectReferences strings_ToLower run objects)),
      spec_only_WithObjectReferences.
  - apply (Hcomm (fun run => WithReleaseStrategy env run strategy)),
      spec_only_WithReleaseStrategy.
  - apply (Hcomm (fun run => WithWorkspace run name claim)), spec_only_WithWorkspace.
  - apply (Hcomm (fun run => WithServiceAccount run serviceAccount)),
      spec_only_WithServiceAccount.
Qed.

(** X8: no mutator that works on the Spec removes, reorders or rewrites a
    parameter: the Params before the call are a prefix of the Params after
    it, for WithExtraParam, WithEnterpriseContractConfigMap,
    WithObjectReferences, WithReleaseStrategy, WithWorkspace,
    WithServiceAccount, and for WithEnterpriseContractPolicy when it
    returns. *)
Theorem params_only_grow (r : ReleasePipelineRun) :
  (forall name value,
     spec_Params (Spec r) `prefix_of` spec_Params (Spec (WithExtraParam r name value)))
  /\ (forall ecConfig,
        spec_Params (Spec r)
          `prefix_of` spec_Params (Spec (WithEnterpriseContractConfigMap r ecConfig)))
  /\ (forall strings_ToLower objects,
        spec_Params (Spec r)
          `prefix_of` spec_Params (Spec (WithObjectReferences strings_ToLower r objects)))
  /\ (forall env strategy,
        spec_Params (Spec r)
          `prefix_of` spec_Params (Spec (WithReleaseStrategy env r strategy)))
  /\ (forall name claim,
        spec_Params (Spec (WithWorkspace r name claim)) = spec_Params (Spec r))
  /\ (forall serviceAccount,
        spec_Params (Spec (WithServiceAccount r serviceAccount)) = spec_Params (Spec r))
  /\ (forall (PolicySpec : Type) (json_Marshal : PolicySpec -> string * option error)
             (case_table_lower : rune -> rune) (policy : EnterpriseContractPolicy PolicySpec)
             (r' : ReleasePipelineRun),
        WithEnterpriseContractPolicy json_Marshal case_table_lower r policy = Returns r' ->
        spec_Params (Spec r) `prefix_of` spec_Params (Spec r')).
Proof.
  split_ands; intros.
  - apply prefix_app_r. reflexivity.
  - unfold WithEnterpriseContractConfigMap, gitResolverFields. simpl.
    rewrite <- !app_assoc. apply prefix_app_r. reflexivity.
  - rewrite WithObjectReferences_Params. apply prefix_app_r. reflexivity.
  - rewrite WithReleaseStrategy_Params. apply prefix_app_r. reflexivity.
  - apply WithWorkspace_Params.
  - reflexivity.
  - destruct (spec_only_WithEnterpriseContractPolicy json_Marshal case_table_lower policy)
      as [name Hname].
    rewrite (Hname r r' H). apply prefix_app_r. reflexivity.
Qed.

Lemma params_only_grow_witness :
  spec_Params (Spec (NewReleasePipelineRun "release" "dev"))
    `prefix_of`
    spec_Params
      (Spec (WithExtraParam (NewReleasePipelineRun "release" "dev")
               "enterpriseContractPolicy" (string_value "{}"))).
Proof.
  exact (proj2 (proj2 (proj2 (proj2 (proj2 (proj2
           (params_only_grow (NewReleasePipelineRun "release" "dev")))))))
           string marshal_id (fun x => x) sample_policy _ eq_refl).
Defined.

(** X9: the kind, the name, the name prefix and the namespace given at
    creation are never changed: every mutator of the file that returns
    leaves them as NewReleasePipelineRun (or the caller) set them. *)
Theorem identity_is_kept (r : ReleasePipelineRun) :
  (forall name value, run_identity (WithExtraParam r name value) = run_identity r)
  /\ (forall ecConfig,
        run_identity (WithEnterpriseContractConfigMap r ecConfig) = run_identity r)
  /\ (forall strings_ToLower objects,
        run_identity (WithObjectReferences strings_ToLower r objects) = run_identity r)
  /\ (forall env strategy, run_identity (WithReleaseStrategy env r strategy) = run_identity r)
  /\ (forall name claim, run_identity (WithWorkspace r name claim) = run_identity r)
  /\ (forall serviceAccount,
        run_identity (WithServiceAccount r serviceAccount) = run_identity r)
  /\ (forall names release applicationName,
        run_identity (WithReleaseAndApplicationMetadata names r release applicationName)
        = run_identity r)
  /\ (forall (PolicySpec : Type) (json_Marshal : PolicySpec -> string * option error)
             (case_table_lower : rune -> rune) (policy : EnterpriseContractPolicy PolicySpec)
             (r' : ReleasePipelineRun),
        WithEnterpriseContractPolicy json_Marshal case_table_lower r policy = Returns r' ->
        run_identity r' = run_identity r).
Proof.
  assert (Hid : forall f, spec_only f -> run_identity (f r) = run_identity r).
  { intros f [g Hg]. rewrite Hg. reflexivity. }
  split_ands; intros.
  - apply (Hid (fun run => WithExtraParam run name value)), spec_only_WithExtraParam.
  - apply (Hid (fun run => WithEnterpriseContractConfigMap run ecConfig)),
      spec_only_WithEnterpriseContractConfigMap.
  - apply (Hid (fun run => WithObjectReferences strings_ToLower run objects)),
      spec_only_WithObjectReferences.
  - apply (Hid (fun run => WithReleaseStrategy env run strategy)),
      spec_only_WithReleaseStrategy.
  - apply (Hid (fun run => WithWorkspace run name claim)), spec_only_WithWorkspace.
  - reflexivity.
  - reflexivity.
  - destruct (spec_only_WithEnterpriseContractPolicy json_Marshal case_table_lower policy)
      as [name Hname].
    rewrite (Hname r r' H). reflexivity.
Qed.

Lemma identity_is_kept_witness :
  run_identity (WithExtraParam (NewReleasePipelineRun "release" "dev")
                  "enterpriseContractPolicy" (string_value "{}"))
  = run_identity (NewReleasePipelineRun "release" "dev").
Proof.
  exact (proj2 (proj2 (proj2 (proj2 (proj2 (proj2 (proj2
           (identity_is_kept (NewReleasePipelineRun "release" "dev"))))))))
           string marshal_id (fun x => x) sample_policy _ eq_refl).
Defined.

(** ** Object references *)

(** X10: WithObjectReferences appends one string parameter per object, in
    the order of the arguments, named by the lower-cased kind and valued
    namespace/name; objects of the same kind each get their own parameter.
    With no object the run is unchanged, and passing the objects in one call
    or in two consecutive calls gives the same run. *)
Theorem WithObjectReferences_one_per_object (strings_ToLower : string -> string)
    (r : ReleasePipelineRun) (objects more : list ClientObject) :
  spec_Params (Spec (WithObjectReferences strings_ToLower r objects))
  = spec_Params (Spec r)
    ++ map (fun object =>
              {| param_Name := strings_ToLower (obj_Kind object);
                 param_Value :=
                   {| aos_Type := ParamTypeString;
                      aos_StringVal := (obj_Namespace object ++ "/" ++ obj_Name object)%string;
                      aos_ArrayVal := []; aos_ObjectVal := ∅ |} |})
           objects
  /\ WithObjectReferences strings_ToLower r [] = r
  /\ WithObjectReferences strings_ToLower r (objects ++ more)
     = WithObjectReferences strings_ToLower
         (WithObjectReferences strings_ToLower r objects) more.
Proof.
  split; [|split].
  - revert r. unfold WithObjectReferences.
    induction objects as [|object objects IH]; intros r; simpl.
    + symmetry. apply app_nil_r.
    + rewrite IH, WithExtraParam_Params, <- app_assoc. reflexivity.
  - reflexivity.
  - unfold WithObjectReferences. apply fold_left_app.
Qed.

(** ** Enterprise contract config map *)

(** X11: WithEnterpriseContractConfigMap reads the three git resolver keys
    and nothing else: two config maps that read the same under these keys
    give the same run, whatever else they hold; in particular a key that is
    absent and a key mapped to the empty string cannot be told apart. *)
Theorem WithEnterpriseContractConfigMap_three_keys (r : ReleasePipelineRun)
    (c1 c2 : ConfigMap) :
  (forall field, field ∈ gitResolverFields ->
     map_index (cm_Data c1) field = map_index (cm_Data c2) field) ->
  WithEnterpriseContractConfigMap r c1 = WithEnterpriseContractConfigMap r c2.
Proof.
  intros Hsame. unfold WithEnterpriseContractConfigMap.
  revert r Hsame. induction gitResolverFields as [|field fields IH]; intros r Hsame; simpl.
  - reflexivity.
  - rewrite (Hsame field) by (apply list_elem_of_here).
    apply IH. intros f Hf. apply Hsame. apply list_elem_of_further. exact Hf.
Qed.

Lemma WithEnterpriseContractConfigMap_three_keys_witness :
  WithEnterpriseContractConfigMap (NewReleasePipelineRun "release" "dev")
    {| cm_Data := {[ "verify_ec_task_git_url" := "https://example.test/repo";
                     "verify_ec_task_git_revision" := "";
                     "unrelated" := "x" ]} |}
  = WithEnterpriseContractConfigMap (NewReleasePipelineRun "release" "dev")
      {| cm_Data := {[ "verify_ec_task_git_url" := "https://example.test/repo" ]} |}.
Proof.
  apply WithEnterpriseContractConfigMap_three_keys.
  intros field Hfield. unfold gitResolverFields in Hfield.
  apply list_elem_of_In in Hfield. simpl in Hfield.
  destruct Hfield as [<- | [<- | [<- | []]]]; reflexivity.
Defined.

(** ** Enterprise contract policy: bytes, well-formed names and the error *)



(** X13: whatever bytes the kind holds, the parameter name
    WithEnterpriseContractPolicy builds is well-formed UTF-8: decoding it to
    runes and encoding the runes again gives the name back, byte for byte. *)
Theorem WithEnterpriseContractPolicy_name_well_formed {PolicySpec : Type}
    (json_Marshal : PolicySpec -> string * option error) (case_table_lower : rune -> rune)
    (r r' : ReleasePipelineRun) (policy : EnterpriseContractPolicy PolicySpec) :
  WithEnterpriseContractPolicy json_Marshal case_table_lower r policy = Returns r' ->
  exists p : Param,
    spec_Params (Spec r') = spec_Params (Spec r) ++ [p]
    /\ slicerunetostring (stringtoslicerune (param_Name p)) = param_Name p.
Proof.
  unfold WithEnterpriseContractPolicy.
  destruct (json_Marshal (ecp_Spec policy)) as [policyJson err].
  destruct (stringtoslicerune (ecp_Kind policy)) as [|r0 rest]; intros Hr; [discriminate Hr|].
  injection Hr as <-. eexists. split; [reflexivity|]. simpl.
  rewrite stringtoslicerune_slicerunetostring. unfold slicerunetostring.
  rewrite map_map.
  rewrite (map_ext (fun x => encoderune (written_rune x)) encoderune)
    by apply encoderune_written.
  reflexivity.
Qed.

Lemma WithEnterpriseContractPolicy_name_well_formed_witness :
  exists p : Param,
    spec_Params (Spec (WithExtraParam (NewReleasePipelineRun "release" "dev")
                         "enterpriseContractPolicy" (string_value "{}")))
    = spec_Params (Spec (NewReleasePipelineRun "release" "dev")) ++ [p]
    /\ slicerunetostring (stringtoslicerune (param_Name p)) = param_Name p.
Proof.
  exact (WithEnterpriseContractPolicy_name_well_formed marshal_id (fun x => x)
           (NewReleasePipelineRun "release" "dev") _ sample_policy eq_refl).
Defined.

(** X14: the error returned by json.Marshal plays no part: the outcome of
    WithEnterpriseContractPolicy depends on the serializer only through the
    bytes it returns, so a failed serialization still appends the parameter,
    with whatever bytes came back. *)
Theorem WithEnterpriseContractPolicy_ignores_marshal_error {PolicySpec : Type}
    (marshal1 marshal2 : PolicySpec -> string * option error)
    (case_table_lower : rune -> rune)
    (r : ReleasePipelineRun) (policy : EnterpriseContractPolicy PolicySpec) :
  fst (marshal1 (ecp_Spec policy)) = fst (marshal2 (ecp_Spec policy)) ->
  WithEnterpriseContractPolicy marshal1 case_table_lower r policy
  = WithEnterpriseContractPolicy marshal2 case_table_lower r policy.
Proof.
  unfold WithEnterpriseContractPolicy.
  destruct (marshal1 (ecp_Spec policy)) as [json1 err1],
           (marshal2 (ecp_Spec policy)) as [json2 err2]. simpl.
  intros ->. reflexivity.
Qed.

Lemma WithEnterpriseContractPolicy_ignores_marshal_error_witness :
  WithEnterpriseContractPolicy (fun _ : string => ("", Some "json: unsupported value"))
    (fun x => x) (NewReleasePipelineRun "release" "dev") sample_policy
  = WithEnterpriseContractPolicy (fun _ : string => ("", None))
      (fun x => x) (NewReleasePipelineRun "release" "dev") sample_policy.
Proof.
  apply WithEnterpriseContractPolicy_ignores_marshal_error. reflexivity.
Defined.

(** ** Labels are replaced, annotations are kept *)

(** X15: WithReleaseAndApplicationMetadata assigns a new label map, so the
    labels the run had before are gone: the labels afterwards do not depend
    on the run, and a key that is neither one of the four fixed keys nor
    under the copied prefix is absent.  Annotations are only added to: an
    annotation the run had stays, unless the release holds an annotation
    with the same key under the prefix. *)
Theorem WithReleaseAndApplicationMetadata_replaces_labels (names : MetadataNames)
    (r1 r2 : ReleasePipelineRun) (release : Release) (applicationName : string) :
  om_Labels (ObjectMeta_ (WithReleaseAndApplicationMetadata names r1 release applicationName))
  = om_Labels (ObjectMeta_ (WithReleaseAndApplicationMetadata names r2 release applicationName))
  /\ (forall k, k ∉ fixed_label_keys names ->
        HasPrefix k (PipelinesAsCodePrefix names) = false ->
        om_Labels (ObjectMeta_ (WithReleaseAndApplicationMetadata names r1 release
                                  applicationName)) !! k = None)
  /\ (forall k v, om_Annotations (ObjectMeta_ r1) !! k = Some v ->
        HasPrefix k (PipelinesAsCodePrefix names) = false
        \/ release_Annotations release !! k = None ->
        om_Annotations (ObjectMeta_ (WithReleaseAndApplicationMetadata names r1 release
                                       applicationName)) !! k = Some v).
Proof.
  split; [reflexivity|]. split.
  - intros k Hk Hprefix. rewrite WithReleaseAndApplicationMetadata_Labels.
    unfold GetLabelsWithPrefix.
    rewrite lookup_union_r by (apply filterByPrefix_lookup_other; exact Hprefix).
    unfold fixed_label_keys in Hk. rewrite !not_elem_of_cons in Hk.
    destruct Hk as (H1 & H2 & H3 & H4 & _).
    unfold fixed_labels. rewrite !lookup_insert_ne by congruence. apply lookup_empty.
  - intros k v Hk Hfree. unfold WithReleaseAndApplicationMetadata. simpl.
    rewrite lookup_union_r; [exact Hk|].
    unfold GetAnnotationsWithPrefix.
    destruct (filterByPrefix (release_Annotations release) (PipelinesAsCodePrefix names) !! k)
      as [w|] eqn:Hw; [|reflexivity].
    apply filterByPrefix_lookup_Some in Hw. destruct Hw as [Hrel Hpre].
    destruct Hfree; congruence.
Qed.

Lemma WithReleaseAndApplicationMetadata_replaces_labels_witness :
  om_Labels (ObjectMeta_ labelled_run) !! "team" = Some "blue"
  /\ om_Labels (ObjectMeta_ (WithReleaseAndApplicationMetadata sample_names labelled_run
                               sample_release "app")) !! "team" = None.
Proof.
  split; [reflexivity|].
  apply (proj1 (proj2 (WithReleaseAndApplicationMetadata_replaces_labels sample_names
                         labelled_run labelled_run sample_release "app"))).
  - unfold fixed_label_keys, sample_names. simpl.
    rewrite list_elem_of_In. simpl. intuition discriminate.
  - reflexivity.
Defined.

(** ** Appends are ordered and never merged *)

(** X16: WithExtraParam never merges or deduplicates: appending under a name
    that is already present adds a second entry, and two appends give the
    same run in either order only when they append the same entry. *)
Theorem WithExtraParam_order_matters (r : ReleasePipelineRun) (name1 name2 : string)
    (value1 value2 : ArrayOrString) :
  spec_Params (Spec (WithExtraParam (WithExtraParam r name1 value1) name1 value2))
  = spec_Params (Spec r)
    ++ [ {| param_Name := name1; param_Value := value1 |};
         {| param_Name := name1; param_Value := value2 |} ]
  /\ (WithExtraParam (WithExtraParam r name1 value1) name2 value2
      = WithExtraParam (WithExtraParam r name2 value2) name1 value1
      <-> name1 = name2 /\ value1 = value2).
Proof.
  split.
  - rewrite !WithExtraParam_Params, <- app_assoc. reflexivity.
  - split.
    + intros Hsame. apply (f_equal (fun run => spec_Params (Spec run))) in Hsame.
      rewrite !WithExtraParam_Params in Hsame.
      apply app_inj_tail in Hsame as [Hfront Hlast].
      injection Hlast as Hname Hvalue. split; congruence.
    + intros [-> ->]. reflexivity.
Qed.

(** ** Creation *)





Lemma WithExtraParam_order_matters_witness :
  WithExtraParam (WithExtraParam (NewReleasePipelineRun "release" "dev")
                    "snapshot" (string_value "dev/snap-1"))
    "snapshot" (string_value "dev/snap-2")
  <> WithExtraParam (WithExtraParam (NewReleasePipelineRun "release" "dev")
                       "snapshot" (string_value "dev/snap-2"))
       "snapshot" (string_value "dev/snap-1").
Proof.
  intros Hsame.
  apply (proj2 (WithExtraParam_order_matters (NewReleasePipelineRun "release" "dev")
                  "snapshot" "snapshot"
                  (string_value "dev/snap-1") (string_value "dev/snap-2"))) in Hsame.
  destruct Hsame as [_ Hvalue]. discriminate Hvalue.
Defined.

Lemma getPipelineRef_injective_witness :
  getPipelineRef strategy_build <> getPipelineRef strategy_bundle.
Proof.
  intros Hsame. apply (getPipelineRef_injective strategy_build strategy_bundle) in Hsame.
  destruct Hsame as [Hbundle _]. discriminate Hbundle.
Defined.
